(** * git-open: a shallow embedding of [main.go] and the properties of its
    remote-URL parsing, lookups and command-line dispatch.

    Go strings are byte sequences; they are modelled by [string] (a list of
    [ascii], one per byte).  Functions of Go's standard library used by the
    program ([strings], [unicode/utf8], [unicode], [strconv]) are modelled in
    the modules that carry the package names.  The program itself follows,
    once for [main.go] and once for the earlier variant of the same file. *)

From Stdlib Require Import String Ascii List ZArith NArith Bool Lia.
From Stdlib Require Import DecimalString.
Import ListNotations.

Open Scope string_scope.
Open Scope list_scope.

(** ** Byte strings: slices and indexing *)

(** [s[i:]] *)
Fixpoint slice_from (s : string) (i : nat) {struct i} : string :=
  match i, s with
  | O, _ => s
  | S i', String _ s' => slice_from s' i'
  | S _, EmptyString => EmptyString
  end.

(** [s[:i]] *)
Fixpoint slice_to (s : string) (i : nat) {struct i} : string :=
  match i, s with
  | O, _ => EmptyString
  | S i', String c s' => String c (slice_to s' i')
  | S _, EmptyString => EmptyString
  end.

(** [s[i]] as a number; 0 stands for a byte that is not there (every use
    below is within bounds). *)
Definition byte_at (s : string) (i : nat) : N :=
  match String.get i s with
  | Some c => N_of_ascii c
  | None => 0%N
  end.

(** Does byte [c] occur in [s]? *)
Fixpoint contains (c : ascii) (s : string) : bool :=
  match s with
  | EmptyString => false
  | String d s' => Ascii.eqb d c || contains c s'
  end.

(** Number of occurrences of byte [c] in [s]. *)
Fixpoint count_byte (c : ascii) (s : string) : nat :=
  match s with
  | EmptyString => 0
  | String d s' => (if Ascii.eqb d c then 1 else 0) + count_byte c s'
  end.

(** ** Package [unicode/utf8] and [unicode.IsSpace] *)

Module utf8.

Definition RuneError : N := 0xFFFD%N.
Definition RuneSelf : N := 0x80%N.
Definition UTFMax : nat := 4.

(** The table [first] of the decoder, by ranges of the lead byte: the size
    of the sequence and the range accepted for its second byte.  [None] is
    the table's [xx], an invalid lead byte. *)
Definition first (s0 : N) : option (nat * N * N) :=
  (if s0 <? 0xC2 then None
   else if s0 <=? 0xDF then Some (2%nat, 0x80, 0xBF)
   else if s0 =? 0xE0 then Some (3%nat, 0xA0, 0xBF)
   else if s0 <=? 0xEC then Some (3%nat, 0x80, 0xBF)
   else if s0 =? 0xED then Some (3%nat, 0x80, 0x9F)
   else if s0 <=? 0xEF then Some (3%nat, 0x80, 0xBF)
   else if s0 =? 0xF0 then Some (4%nat, 0x90, 0xBF)
   else if s0 <=? 0xF3 then Some (4%nat, 0x80, 0xBF)
   else if s0 =? 0xF4 then Some (4%nat, 0x80, 0x8F)
   else None)%N.

Definition cont (b : N) : bool := ((0x80 <=? b) && (b <=? 0xBF))%N.

(** [utf8.DecodeRuneInString]: the first rune of [s] and its width in
    bytes; an invalid encoding gives [(RuneError, 1)], the empty string
    [(RuneError, 0)]. *)
Definition DecodeRuneInString (s : string) : N * nat :=
  match s with
  | EmptyString => (RuneError, 0)
  | String c0 _ =>
    let s0 := N_of_ascii c0 in
    if (s0 <? RuneSelf)%N then (s0, 1)
    else
      match first s0 with
      | None => (RuneError, 1)
      | Some (sz, lo, hi) =>
        if Nat.ltb (String.length s) sz then (RuneError, 1)
        else
          let s1 := byte_at s 1 in
          if ((s1 <? lo) || (hi <? s1))%N then (RuneError, 1)
          else if Nat.leb sz 2
          then (N.lor (N.shiftl (N.land s0 0x1F) 6) (N.land s1 0x3F), 2)
          else
            let s2 := byte_at s 2 in
            if negb (cont s2) then (RuneError, 1)
            else if Nat.leb sz 3
            then (N.lor (N.lor (N.shiftl (N.land s0 0x0F) 12)
                               (N.shiftl (N.land s1 0x3F) 6))
                        (N.land s2 0x3F), 3)
            else
              let s3 := byte_at s 3 in
              if negb (cont s3) then (RuneError, 1)
              else (N.lor (N.lor (N.lor (N.shiftl (N.land s0 0x07) 18)
                                        (N.shiftl (N.land s1 0x3F) 12))
                                 (N.shiftl (N.land s2 0x3F) 6))
                          (N.land s3 0x3F), 4)
      end
  end.

(** [utf8.RuneStart]: [b] is not a continuation byte. *)
Definition RuneStart (b : N) : bool := negb (N.land b 0xC0 =? 0x80)%N.

(** The backward scan of [DecodeLastRuneInString]:
    [for start--; start >= lim; start-- { if RuneStart(s[start]) break }],
    entered after its [start--], with at most [k] tests left. *)
Fixpoint lastRuneStart (s : string) (lim : Z) (k : nat) (start : Z) : Z :=
  match k with
  | O => start
  | S k' =>
    if (start <? lim)%Z then start
    else if RuneStart (byte_at s (Z.to_nat start)) then start
    else lastRuneStart s lim k' (start - 1)%Z
  end.

(** [utf8.DecodeLastRuneInString]: the last rune of [s] and its width. *)
Definition DecodeLastRuneInString (s : string) : N * nat :=
  let end_ := Z.of_nat (String.length s) in
  if (end_ =? 0)%Z then (RuneError, 0)
  else
    let r := byte_at s (Z.to_nat (end_ - 1)) in
    if (r <? RuneSelf)%N then (r, 1)
    else
      let lim := Z.max 0 (end_ - Z.of_nat UTFMax) in
      let start := Z.max 0 (lastRuneStart s lim UTFMax (end_ - 2)) in
      let '(r', size) := DecodeRuneInString (slice_from s (Z.to_nat start)) in
      if (start + Z.of_nat size =? end_)%Z then (r', size)
      else (RuneError, 1).

(** [utf8.RuneCountInString], by decoding rune after rune; [fuel] bounds
    the number of runes and [String.length s] is always enough. *)
Fixpoint RuneCount_loop (fuel : nat) (s : string) : nat :=
  match fuel, s with
  | _, EmptyString => 0
  | O, _ => 0
  | S k, _ => S (RuneCount_loop k (slice_from s (snd (DecodeRuneInString s))))
  end.

Definition RuneCountInString (s : string) : nat :=
  RuneCount_loop (String.length s) s.

End utf8.

Module unicode.

(** [unicode.IsSpace]: the Latin-1 cases of the switch, then the
    [White_Space] range table above Latin-1. *)
Definition IsSpace (r : N) : bool :=
  (if r <=? 0xFF
   then (r =? 0x09) || (r =? 0x0A) || (r =? 0x0B) || (r =? 0x0C)
        || (r =? 0x0D) || (r =? 0x20) || (r =? 0x85) || (r =? 0xA0)
   else (r =? 0x1680) || ((0x2000 <=? r) && (r <=? 0x200A))
        || (r =? 0x2028) || (r =? 0x2029) || (r =? 0x202F)
        || (r =? 0x205F) || (r =? 0x3000))%N.

End unicode.

(** ** Package [strings] *)

Module strings.

Import utf8.

(** [len(s) >= len(prefix) && s[:len(prefix)] == prefix] *)
Definition HasPrefix (s prefix : string) : bool :=
  Nat.leb (String.length prefix) (String.length s)
  && String.eqb (slice_to s (String.length prefix)) prefix.

(** [len(s) >= len(suffix) && s[len(s)-len(suffix):] == suffix] *)
Definition HasSuffix (s suffix : string) : bool :=
  Nat.leb (String.length suffix) (String.length s)
  && String.eqb (slice_from s (String.length s - String.length suffix)) suffix.

Definition TrimPrefix (s prefix : string) : string :=
  if HasPrefix s prefix then slice_from s (String.length prefix) else s.

Definition TrimSuffix (s suffix : string) : string :=
  if HasSuffix s suffix then slice_to s (String.length s - String.length suffix)
  else s.

(** [strings.Index]: the index of the first instance of [substr] in [s],
    or -1. *)
Fixpoint Index (s substr : string) : Z :=
  if HasPrefix s substr then 0%Z
  else
    match s with
    | EmptyString => (-1)%Z
    | String _ s' =>
      let i := Index s' substr in
      if (i <? 0)%Z then (-1)%Z else (i + 1)%Z
    end.

(** The counting loop of [strings.Count] for a non-empty [substr]; each
    round drops at least one byte, so [String.length s] rounds suffice. *)
Fixpoint Count_loop (fuel : nat) (s substr : string) : nat :=
  match fuel with
  | O => 0
  | S k =>
    let i := Index s substr in
    if (i <? 0)%Z then 0
    else S (Count_loop k (slice_from s (Z.to_nat i + String.length substr)) substr)
  end.

Definition Count (s substr : string) : nat :=
  if String.eqb substr "" then RuneCountInString s + 1
  else Count_loop (String.length s) s substr.

(** [explode]: [s] cut into its UTF-8 sequences, at most [n] of them; only
    reached with an empty separator, which this program never passes. *)
Fixpoint explode_loop (k : nat) (s : string) : list string :=
  match k with
  | O => [s]
  | S k' =>
    let size := snd (DecodeRuneInString s) in
    slice_to s size :: explode_loop k' (slice_from s size)
  end.

Definition explode (s : string) (n : Z) : list string :=
  let l := Z.of_nat (RuneCountInString s) in
  let n := if ((n <? 0) || (l <? n))%Z then l else n in
  if (0 <? n)%Z then explode_loop (Z.to_nat (n - 1)) s else [].

(** The loop of [genSplit] (with [sepSave = 0]): [k] is [n - 1 - i]. *)
Fixpoint genSplit_loop (k : nat) (s sep : string) : list string :=
  match k with
  | O => [s]
  | S k' =>
    let m := Index s sep in
    if (m <? 0)%Z then [s]
    else slice_to s (Z.to_nat m)
         :: genSplit_loop k' (slice_from s (Z.to_nat m + String.length sep)) sep
  end.

Definition genSplit (s sep : string) (n : Z) : list string :=
  if (n =? 0)%Z then []
  else if String.eqb sep "" then explode s n
  else
    let n := if (n <? 0)%Z then (Z.of_nat (Count s sep) + 1)%Z else n in
    let len1 := (Z.of_nat (String.length s) + 1)%Z in
    let n := if (len1 <? n)%Z then len1 else n in
    genSplit_loop (Z.to_nat (n - 1)) s sep.

Definition SplitN (s sep : string) (n : Z) : list string := genSplit s sep n.

Definition Split (s sep : string) : list string := genSplit s sep (-1).

(** The replacement loop of [strings.Replace]; [s] is [s[start:]] and
    [first] tells the round [i = 0]. *)
Fixpoint Replace_loop (k : nat) (first : bool) (s old new : string) : string :=
  match k with
  | O => s
  | S k' =>
    let j :=
      if Nat.eqb (String.length old) 0
      then (if first then 0 else snd (DecodeRuneInString s))
      else Z.to_nat (Index s old) in
    slice_to s j ++ new
    ++ Replace_loop k' false (slice_from s (j + String.length old)) old new
  end.

Definition Replace (s old new : string) (n : Z) : string :=
  if String.eqb old new || (n =? 0)%Z then s
  else
    let m := Count s old in
    if Nat.eqb m 0 then s
    else
      let n := if ((n <? 0) || (Z.of_nat m <? n))%Z then m else Z.to_nat n in
      Replace_loop n true s old new.

(** [indexFunc]: the byte index of the first rune [r] of [s] with
    [f r = truth], or -1; [i] is the index of [s] in the whole string. *)
Fixpoint indexFunc_loop (fuel : nat) (s : string) (i : nat)
         (f : N -> bool) (truth : bool) : Z :=
  match fuel, s with
  | _, EmptyString => (-1)%Z
  | O, _ => (-1)%Z
  | S k, _ =>
    let '(r, size) := DecodeRuneInString s in
    if Bool.eqb (f r) truth then Z.of_nat i
    else indexFunc_loop k (slice_from s size) (i + size) f truth
  end.

Definition indexFunc (s : string) (f : N -> bool) (truth : bool) : Z :=
  indexFunc_loop (String.length s) s 0 f truth.

(** [lastIndexFunc]: the same from the end; [i] is the loop variable. *)
Fixpoint lastIndexFunc_loop (fuel : nat) (s : string) (i : nat)
         (f : N -> bool) (truth : bool) : Z :=
  match fuel with
  | O => (-1)%Z
  | S k =>
    if Nat.eqb i 0 then (-1)%Z
    else
      let '(r, size) := DecodeLastRuneInString (slice_to s i) in
      let i' := i - size in
      if Bool.eqb (f r) truth then Z.of_nat i'
      else lastIndexFunc_loop k s i' f truth
  end.

Definition lastIndexFunc (s : string) (f : N -> bool) (truth : bool) : Z :=
  lastIndexFunc_loop (String.length s) s (String.length s) f truth.

Definition TrimLeftFunc (s : string) (f : N -> bool) : string :=
  let i := indexFunc s f false in
  if (i =? -1)%Z then "" else slice_from s (Z.to_nat i).

Definition TrimRightFunc (s : string) (f : N -> bool) : string :=
  let i := lastIndexFunc s f false in
  let i :=
    if ((0 <=? i)%Z && (RuneSelf <=? byte_at s (Z.to_nat i))%N)%bool
    then (i + Z.of_nat (snd (DecodeRuneInString (slice_from s (Z.to_nat i)))))%Z
    else (i + 1)%Z in
  slice_to s (Z.to_nat i).

Definition TrimFunc (s : string) (f : N -> bool) : string :=
  TrimRightFunc (TrimLeftFunc s f) f.

(** [strings.TrimSpace]: leading and trailing white space removed, as
    defined by Unicode. *)
Definition TrimSpace (s : string) : string := TrimFunc s unicode.IsSpace.

(** [strings.FieldsFunc]: the maximal runs of runes that do not satisfy
    [f]; [cur] is the run being read, if one is open. *)
Definition flush (cur : option string) : list string :=
  match cur with
  | Some w => [w]
  | None => []
  end.

Fixpoint FieldsFunc_loop (fuel : nat) (s : string) (f : N -> bool)
         (cur : option string) : list string :=
  match fuel, s with
  | _, EmptyString => flush cur
  | O, _ => flush cur
  | S k, _ =>
    let '(r, size) := DecodeRuneInString s in
    if f r then flush cur ++ FieldsFunc_loop k (slice_from s size) f None
    else
      let w := match cur with Some w => w | None => "" end in
      FieldsFunc_loop k (slice_from s size) f (Some (w ++ slice_to s size)%string)
  end.

Definition FieldsFunc (s : string) (f : N -> bool) : list string :=
  FieldsFunc_loop (String.length s) s f None.

(** [strings.Fields]: split around runs of white space. *)
Definition Fields (s : string) : list string := FieldsFunc s unicode.IsSpace.

End strings.

Module strconv.

(** [strconv.Itoa]: the decimal representation, with a sign for negative
    numbers. *)
Definition Itoa (i : Z) : string := NilZero.string_of_int (Z.to_int i).

End strconv.

(** The line feed, Go's ["\n"]. *)
Definition LF : string := String (ascii_of_nat 10) EmptyString.

(** ** The Go run time: errors, panics, exits and the outside world *)

(** Values of Go's [error] interface met by the program; [nil] is [None]. *)
Inductive error : Type :=
| errors_New (text : string)      (* errors.New(text) *)
| exec_Error (text : string)      (* os/exec: the command could not be started *)
| exec_ExitError (code : Z)       (* os/exec: the command exited with a non-zero status *)
| gitlab_Error (text : string).   (* an error returned by the GitLab client *)

(** The [Error()] method. *)
Definition Error (e : error) : string :=
  match e with
  | errors_New text => text
  | exec_Error text => text
  | exec_ExitError code => "exit status " ++ strconv.Itoa code
  | gitlab_Error text => text
  end.

(** A run-time panic: an index expression out of range. *)
Inductive panic : Type :=
| index_out_of_range (i len : nat).

(** How a Go computation ends: with a value, with a run-time panic, or with
    [os.Exit(code)]. *)
Inductive outcome (A : Type) : Type :=
| Ret (a : A)
| Panic (p : panic)
| Exit (code : Z).

Arguments Ret {A} a.
Arguments Panic {A} p.
Arguments Exit {A} code.

Definition obind {A B : Type} (o : outcome A) (k : A -> outcome B) : outcome B :=
  match o with
  | Ret a => k a
  | Panic p => Panic p
  | Exit code => Exit code
  end.

Notation "'let!' x ':=' o 'in' k" := (obind o (fun x => k))
  (at level 10, x name, o at level 100, k at level 200).

(** The index expression [a[i]] of a slice. *)
Definition index {A : Type} (a : list A) (i : nat) : outcome A :=
  match nth_error a i with
  | Some x => Ret x
  | None => Panic (index_out_of_range i (List.length a))
  end.

(** The parts of the libraries' data that the program reads or writes. *)
Record Cmd : Type := { Args : list string; Dir : string }.

(** [exec.Command(name, arg...)] *)
Definition exec_Command (name : string) (arg : list string) : Cmd :=
  {| Args := name :: arg; Dir := "" |}.

Record Client : Type := { token : string; baseURL : option string }.

Record Project : Type := { ID : Z; SSHURLToRepo : string }.

Record MergeRequest : Type := { WebURL : string }.

Record ListProjectsOptions : Type := { Search : option string }.

Record ListProjectMergeRequestsOptions : Type :=
  { SourceBranch : option string; State : option string; View : option string }.

(** What the program does to the outside, in the order it does it. *)
Inductive event : Type :=
| EvLog (text : string)
| EvRun (cmd : Cmd)
| EvListProjects (client : Client) (opt : ListProjectsOptions)
| EvListProjectMergeRequests (client : Client) (pid : string)
                             (opt : ListProjectMergeRequestsOptions).

(** An event that reaches the network. *)
Definition is_network (e : event) : bool :=
  match e with
  | EvListProjects _ _ => true
  | EvListProjectMergeRequests _ _ _ => true
  | _ => false
  end.

(** How a started or failed process is seen by the [Run] method of [exec.Cmd]. *)
Inductive process : Type :=
| NotStarted (text : string)
| Exited (code : Z) (stdout : string).

(** The error of [cmd.Run()]: nil exactly when the command ran and exited
    with status zero. *)
Definition Run_err (p : process) : option error :=
  match p with
  | NotStarted text => Some (exec_Error text)
  | Exited code _ => if (code =? 0)%Z then None else Some (exec_ExitError code)
  end.

(** What [cmd.Stdout] has collected. *)
Definition Run_out (p : process) : string :=
  match p with
  | NotStarted _ => ""
  | Exited _ stdout => stdout
  end.

(** The outside world answers each request; an answer may depend on
    everything the program did before (the events so far). *)
Record World : Type := {
  os_Getenv : string -> string;
  run_process : list event -> Cmd -> process;
  list_projects :
    list event -> Client -> ListProjectsOptions -> list Project * option error;
  list_merge_requests :
    list event -> Client -> string -> ListProjectMergeRequestsOptions ->
    list MergeRequest * option error
}.

(** Computations with effects: from the events so far to an outcome and the
    events after it. *)
Definition M (A : Type) : Type := list event -> outcome A * list event.

Definition ret {A : Type} (a : A) : M A := fun h => (Ret a, h).

Definition bind {A B : Type} (m : M A) (k : A -> M B) : M B :=
  fun h =>
    match m h with
    | (Ret a, h') => k a h'
    | (Panic p, h') => (Panic p, h')
    | (Exit code, h') => (Exit code, h')
    end.

Definition lift {A : Type} (o : outcome A) : M A := fun h => (o, h).

Declare Scope go_scope.
Delimit Scope go_scope with go.

Notation "x <- m ;; k" := (bind m (fun x => k))
  (at level 61, m at next level, right associativity) : go_scope.
Notation "' pat <- m ;; k" := (bind m (fun x => match x with pat => k end))
  (at level 61, pat pattern, m at next level, right associativity) : go_scope.
Notation "m ;; k" := (bind m (fun _ => k))
  (at level 61, right associativity) : go_scope.

Open Scope go_scope.

Section Effects.

Variable W : World.

(** [log.Print], [log.Println], [log.Printf]: one line on the log. *)
Definition log_Print (text : string) : M unit :=
  fun h => (Ret tt, h ++ [EvLog text]).

(** [log.Fatalf]: the line, then [os.Exit(1)]. *)
Definition log_Fatalf {A : Type} (text : string) : M A :=
  fun h => (Exit 1, h ++ [EvLog text]).

(** [cmd.Run()] with [cmd.Stdout] a buffer. *)
Definition cmd_Run (cmd : Cmd) : M process :=
  fun h => (Ret (run_process W h cmd), h ++ [EvRun cmd]).

(** [client.Projects.ListProjects(opt)] *)
Definition Projects_ListProjects (client : Client) (opt : ListProjectsOptions)
  : M (list Project * option error) :=
  fun h => (Ret (list_projects W h client opt), h ++ [EvListProjects client opt]).

(** [client.MergeRequests.ListProjectMergeRequests(pid, opt)] *)
Definition MergeRequests_ListProjectMergeRequests
           (client : Client) (pid : string)
           (opt : ListProjectMergeRequestsOptions)
  : M (list MergeRequest * option error) :=
  fun h => (Ret (list_merge_requests W h client pid opt),
            h ++ [EvListProjectMergeRequests client pid opt]).

End Effects.

(** ** The program: [main.go] *)

Import strings.

(** [stringptr]: the address of a copy of [str]; a pointer that is never nil. *)
Definition stringptr (str : string) : option string := Some str.

(** The [for ... range] of [getBranch] with the [return] that follows it. *)
Fixpoint getBranch_lines (lines : list string) : string * option error :=
  match lines with
  | [] => ("", Some (errors_New "unable to get current working branch"))
  | line :: rest =>
    if HasPrefix line "*"
    then (TrimSpace (TrimPrefix line "*"), None)
    else getBranch_lines rest
  end.

(** The [for ... range] of [getProjectRemote] with the [return] that follows
    it; [parts[2]] and [parts[1]] are index expressions as in the source. *)
Fixpoint getProjectRemote_lines (lines : list string)
  : outcome (string * option error) :=
  match lines with
  | [] => Ret ("", Some (errors_New "unable to find remote push url"))
  | line :: rest =>
    if String.eqb line "" then getProjectRemote_lines rest
    else
      let parts := Fields line in
      if Nat.ltb (List.length parts) 3 then getProjectRemote_lines rest
      else
        let! parts2 := index parts 2 in
        if String.eqb parts2 "(push)"
        then let! parts1 := index parts 1 in Ret (parts1, None)
        else getProjectRemote_lines rest
  end.

Definition parseRepoURLProjectName (rawurl : string) : outcome string :=
  let hostAndProject := SplitN rawurl ":" 2 in
  let! hostAndProject1 := index hostAndProject 1 in
  let orgAndName := SplitN hostAndProject1 "/" 2 in
  let! orgAndName1 := index orgAndName 1 in
  Ret (TrimSuffix orgAndName1 ".git").

Definition parseRepoURLProjectOrg (rawurl : string) : outcome string :=
  let hostAndProject := SplitN rawurl ":" 2 in
  let! hostAndProject1 := index hostAndProject 1 in
  let orgAndName := SplitN hostAndProject1 "/" 2 in
  index orgAndName 0.

Definition parseRepoURLProjectURL (rawurl : string) : outcome string :=
  let userAndRest := SplitN rawurl "@" 2 in
  let! userAndRest1 := index userAndRest 1 in
  Ret ("https://" ++ TrimSuffix (Replace userAndRest1 ":" "/" 1) ".git")%string.

(** The [for ... range] of [getProjectID] with the [return] that follows it. *)
Fixpoint getProjectID_projs (projs : list Project) (org name : string)
  : string * option error :=
  match projs with
  | [] => ("", Some (errors_New "unable to find project"))
  | proj :: rest =>
    if HasSuffix (SSHURLToRepo proj) (org ++ "/" ++ name ++ ".git")%string
    then (strconv.Itoa (ID proj), None)
    else getProjectID_projs rest org name
  end.

Section Program.

Variable W : World.

Definition getBranch : M (string * option error) :=
  log_Print "getting current working branch" ;;
  p <- cmd_Run W (exec_Command "git" ["branch"]) ;;
  match Run_err p with
  | Some err => ret ("", Some err)
  | None => ret (getBranch_lines (Split (Run_out p) LF))
  end.

Definition getProjectRemote : M (string * option error) :=
  p <- cmd_Run W (exec_Command "git" ["remote"; "-v"]) ;;
  match Run_err p with
  | Some err => ret ("", Some err)
  | None => lift (getProjectRemote_lines (Split (Run_out p) LF))
  end.

Definition getProjectName : M (string * option error) :=
  '(url, err) <- getProjectRemote ;;
  match err with
  | Some e => ret ("", Some e)
  | None => name <- lift (parseRepoURLProjectName url) ;; ret (name, None)
  end.

Definition getProjectOrg : M (string * option error) :=
  '(url, err) <- getProjectRemote ;;
  match err with
  | Some e => ret ("", Some e)
  | None => org <- lift (parseRepoURLProjectOrg url) ;; ret (org, None)
  end.

Definition getProjectHomeURL : M (string * option error) :=
  '(url, err) <- getProjectRemote ;;
  match err with
  | Some e => ret ("", Some e)
  | None => home <- lift (parseRepoURLProjectURL url) ;; ret (home, None)
  end.

Definition getProjectID (client : Client) : M (string * option error) :=
  log_Print "getting gitlab project id" ;;
  '(name, err) <- getProjectName ;;
  match err with
  | Some e => ret ("", Some e)
  | None =>
    '(org, err) <- getProjectOrg ;;
    match err with
    | Some e => ret ("", Some e)
    | None =>
      let opt := {| Search := stringptr name |} in
      '(projs, err) <- Projects_ListProjects W client opt ;;
      match err with
      | Some e => ret ("", Some e)
      | None =>
        if Nat.eqb (List.length projs) 0
        then ret ("", Some (errors_New "got back no projects matching name"))
        else ret (getProjectID_projs projs org name)
      end
    end
  end.

Definition getMRURL (client : Client) (projID branch : string)
  : M (string * option error) :=
  log_Print ("finding MRs for project id(" ++ projID ++ ") on branch " ++ branch) ;;
  let opt := {| SourceBranch := stringptr branch;
                State := stringptr "opened";
                View := stringptr "simple" |} in
  '(mrs, err) <- MergeRequests_ListProjectMergeRequests W client projID opt ;;
  match err with
  | Some e => ret ("", Some e)
  | None =>
    if Nat.eqb (List.length mrs) 0
    then ret ("", Some (errors_New "no matching MRs found"))
    else mrs0 <- lift (index mrs 0) ;; ret (WebURL mrs0, None)
  end.

Definition commandExists (name : string) : M bool :=
  p <- cmd_Run W (exec_Command "command" ["-v"; name]) ;;
  match Run_err p with
  | Some _ => ret false
  | None => ret true
  end.

Definition load (url : string) : M (option error) :=
  log_Print ("loading " ++ url) ;;
  let open := "open" in
  exists_ <- commandExists "xdg-open" ;;
  let open := if (exists_ : bool) then "xdg-open" else open in
  p <- cmd_Run W (exec_Command open [url]) ;;
  ret (Run_err p).

Definition must (err : option error) : M unit :=
  match err with
  | Some e => log_Fatalf ("error: " ++ Error e ++ LF)
  | None => ret tt
  end.

Definition stringmust (call : M (string * option error)) : M string :=
  '(str, err) <- call ;;
  must err ;;
  ret str.

Definition getGitlabClient : M Client :=
  let client := {| token := os_Getenv W "GITLAB_API_KEY"; baseURL := None |} in
  if negb (String.eqb (os_Getenv W "GITLAB_HOST") "")
  then ret {| token := token client;
              baseURL := Some (os_Getenv W "GITLAB_HOST") |}
  else ret client.

(** [main], from [os.Args]; returning is exit status 0. *)
Definition main (os_Args : list string) : M unit :=
  let arg := "home" in
  arg <- (if Nat.ltb 1 (List.length os_Args)
          then lift (index os_Args 1) else ret arg) ;;
  if String.eqb arg "mr" then
    client <- getGitlabClient ;;
    branch <- stringmust getBranch ;;
    projID <- stringmust (getProjectID client) ;;
    mrURL <- stringmust (getMRURL client projID branch) ;;
    err <- load mrURL ;;
    must err
  else if String.eqb arg "home" || String.eqb arg "homepage" then
    homeURL <- stringmust getProjectHomeURL ;;
    err <- load homeURL ;;
    must err
  else
    log_Fatalf ("invalid argument `" ++ arg ++ "`" ++ LF).

End Program.

(** ** The earlier variant of [main.go] (second text of the source file) *)

Module Earlier.

(** The scan of [getProjectName]: [url] stays empty until the [break]. *)
Fixpoint getProjectName_lines (lines : list string) (url : string)
  : outcome string :=
  match lines with
  | [] => Ret url
  | line :: rest =>
    if String.eqb line "" then getProjectName_lines rest url
    else
      let parts := Fields line in
      if Nat.ltb (List.length parts) 3 then getProjectName_lines rest url
      else
        let! parts2 := index parts 2 in
        if String.eqb parts2 "(push)"
        then index parts 1
        else getProjectName_lines rest url
  end.

Section Program.

Variable W : World.

Definition workdir : string :=
  "/Users/marcosmindon/code/go/src/gitlab.mx.com/mx/atlas".

Definition getProjectName : M (string * option error) :=
  p <- cmd_Run W {| Args := ["git"; "remote"; "-v"]; Dir := workdir |} ;;
  match Run_err p with
  | Some err => ret ("", Some err)
  | None =>
    url <- lift (getProjectName_lines (Split (Run_out p) LF) "") ;;
    if String.eqb url ""
    then ret ("", Some (errors_New "unable to find remote push url"))
    else name <- lift (parseRepoURLProjectName url) ;; ret (name, None)
  end.

Definition getProjectID (client : Client) : M (string * option error) :=
  log_Print "getting gitlab project id" ;;
  '(name, err) <- getProjectName ;;
  match err with
  | Some e => ret ("", Some e)
  | None =>
    let opt := {| Search := stringptr name |} in
    '(projs, err) <- Projects_ListProjects W client opt ;;
    match err with
    | Some e => ret ("", Some e)
    | None =>
      if Nat.eqb (List.length projs) 0
      then ret ("", Some (errors_New "unable to find project"))
      else projs0 <- lift (index projs 0) ;;
           ret (strconv.Itoa (ID projs0), None)
    end
  end.

Definition getBranch : M (string * option error) :=
  log_Print "getting current working branch" ;;
  p <- cmd_Run W {| Args := ["git"; "branch"]; Dir := workdir |} ;;
  match Run_err p with
  | Some err => ret ("", Some err)
  | None => ret (getBranch_lines (Split (Run_out p) LF))
  end.

(** [getMRURL], [load], [commandExists], [must] and [stringmust] have the
    same text in both variants; the definitions above are used. *)
Definition main : M unit :=
  let client := {| token := os_Getenv W "GITLAB_API_KEY"; baseURL := None |} in
  let client :=
    if negb (String.eqb (os_Getenv W "GITLAB_HOST") "")
    then {| token := token client; baseURL := Some (os_Getenv W "GITLAB_HOST") |}
    else client in
  branch <- stringmust getBranch ;;
  projID <- stringmust (getProjectID client) ;;
  mrURL <- stringmust (getMRURL W client projID branch) ;;
  err <- load W mrURL ;;
  must err.

End Program.

End Earlier.


(** ** Vocabulary of the properties *)

(** The text before the first byte [c] of [s]; all of [s] when there is
    none. *)
Fixpoint before_first (c : ascii) (s : string) : string :=
  match s with
  | EmptyString => EmptyString
  | String d s' => if Ascii.eqb d c then EmptyString else String d (before_first c s')
  end.

(** The text after the first byte [c] of [s]; empty when there is none. *)
Fixpoint after_first (c : ascii) (s : string) : string :=
  match s with
  | EmptyString => EmptyString
  | String d s' => if Ascii.eqb d c then s' else after_first c s'
  end.

(** The invariant that the specification gives for a remote URL: exactly one
    [":"] and, after it, exactly one ["/"]. *)
Definition well_formed_remote (rawurl : string) : bool :=
  Nat.eqb (count_byte ":" rawurl) 1
  && Nat.eqb (count_byte "/" (after_first ":" rawurl)) 1.

(** The three results exist and the home URL is made of the host, the org
    and the name. *)
Definition parse_consistent (host rawurl : string) : Prop :=
  exists org name,
    parseRepoURLProjectOrg rawurl = Ret org
    /\ parseRepoURLProjectName rawurl = Ret name
    /\ parseRepoURLProjectURL rawurl
       = Ret ("https://" ++ host ++ "/" ++ org ++ "/" ++ name)%string.

(** A push-remote line of [git remote -v]: not empty, at least three
    white-space separated fields, and the third one is ["(push)"]. *)
Definition is_push_line (line : string) : bool :=
  negb (String.eqb line "")
  && Nat.leb 3 (List.length (Fields line))
  && String.eqb (nth 2 (Fields line) "") "(push)".

(** The suffix that [getProjectID] looks for. *)
Definition repo_suffix (org name : string) : string :=
  (org ++ "/" ++ name ++ ".git")%string.

Definition has_repo_suffix (org name : string) (proj : Project) : bool :=
  HasSuffix (SSHURLToRepo proj) (repo_suffix org name).

(** ** A sample world

    A work station in a clone of [mx/atlas] with [feature/login] checked
    out; the API answers with the given projects and merge requests. *)

Definition TAB : string := String (ascii_of_nat 9) EmptyString.

Definition sample_branches : string :=
  ("  master" ++ LF ++ "* feature/login" ++ LF)%string.

Definition sample_remotes : string :=
  ("origin" ++ TAB ++ "git@gitlab.mx.com:mx/atlas.git (fetch)" ++ LF
   ++ "origin" ++ TAB ++ "git@gitlab.mx.com:mx/atlas.git (push)" ++ LF)%string.

Definition sample_world (projs : list Project) (mrs : list MergeRequest) : World :=
  {| os_Getenv := fun key => if String.eqb key "GITLAB_API_KEY" then "s3cret" else "";
     run_process := fun _ cmd =>
       match Args cmd with
       | ["git"; "branch"] => Exited 0 sample_branches
       | ["git"; "remote"; "-v"] => Exited 0 sample_remotes
       | ["command"; "-v"; "xdg-open"] => Exited 0 "/usr/bin/xdg-open"
       | ["xdg-open"; _] => Exited 0 ""
       | _ => NotStarted "executable file not found in $PATH"
       end;
     list_projects := fun _ _ _ => (projs, None);
     list_merge_requests := fun _ _ _ _ => (mrs, None) |}.

Definition atlas : Project :=
  {| ID := 42; SSHURLToRepo := "git@gitlab.mx.com:mx/atlas.git" |}.

Definition atlas_fork : Project :=
  {| ID := 7; SSHURLToRepo := "git@gitlab.mx.com:sandbox/atlas.git" |}.

Definition sample_client : Client := {| token := "s3cret"; baseURL := None |}.

(** ** What a computation does to the events *)

(** [m] only adds events, after those that are there. *)
Definition appends {A : Type} (m : M A) : Prop :=
  forall h, exists tr, snd (m h) = h ++ tr.

(** Whatever else [m] does, the first thing is [e]. *)
Definition starts_with {A : Type} (e : event) (m : M A) : Prop :=
  forall h, exists o tr, m h = (o, h ++ e :: tr).

(** [s] cut at every byte [c], by recursion on [s]: what [Split] is meant to
    compute for a one-byte separator. *)
Fixpoint split_byte (c : ascii) (s : string) : list string :=
  match s with
  | EmptyString => [EmptyString]
  | String d s' =>
    if Ascii.eqb d c then EmptyString :: split_byte c s'
    else
      match split_byte c s' with
      | piece :: pieces => String d piece :: pieces
      | [] => [String d EmptyString]
      end
  end.

(** ** Vocabulary of the further properties *)

(** What [getProjectRemote] makes of the output of [git remote -v]. *)
Definition push_remote (out : string) : string * option error :=
  match find is_push_line (Split out LF) with
  | Some line => (nth 1 (Fields line) "", None)
  | None => ("", Some (errors_New "unable to find remote push url"))
  end.

(** What [getBranch] makes of the output of [git branch]. *)
Definition current_branch (out : string) : string * option error :=
  match find (fun line => HasPrefix line "*") (Split out LF) with
  | Some line => (TrimSpace (TrimPrefix line "*"), None)
  | None => ("", Some (errors_New "unable to get current working branch"))
  end.

(** [m] only adds events, and every event it adds satisfies [P]. *)
Definition emits {A : Type} (P : event -> bool) (m : M A) : Prop :=
  forall h, exists tr, snd (m h) = h ++ tr /\ forallb P tr = true.

Definition no_network (e : event) : bool := negb (is_network e).

(** The commands of [main.go]: two queries to git, the probe for the opener
    and the opener itself, all in the current directory. *)
Definition read_only_command (cmd : Cmd) : bool :=
  String.eqb (Dir cmd) ""
  && match Args cmd with
     | ["git"; "branch"] => true
     | ["git"; "remote"; "-v"] => true
     | ["command"; "-v"; "xdg-open"] => true
     | ["xdg-open"; _] => true
     | ["open"; _] => true
     | _ => false
     end.

Definition runs_read_only (e : event) : bool :=
  match e with
  | EvRun cmd => read_only_command cmd
  | _ => true
  end.

(** The git commands of the earlier variant run in its fixed directory. *)
Definition git_in_workdir (e : event) : bool :=
  match e with
  | EvRun cmd =>
    match Args cmd with
    | "git" :: _ => String.eqb (Dir cmd) Earlier.workdir
    | _ => true
    end
  | _ => true
  end.

(** The line that [must] logs before it exits. *)
Definition fatal_line (e : error) : event := EvLog ("error: " ++ Error e ++ LF).

(** The client that [getGitlabClient] builds from the environment. *)
Definition env_client (W : World) : Client :=
  {| token := os_Getenv W "GITLAB_API_KEY";
     baseURL := if String.eqb (os_Getenv W "GITLAB_HOST") "" then None
                else Some (os_Getenv W "GITLAB_HOST") |}.

(** ** Commands and the search path *)

(** [exec.Command] resolves a command name without a path separator on the
    search path, and [Run] cannot start a command whose name is not there.
    [W] does so for the executables [path]. *)
Definition resolves_on (path : list string) (W : World) : Prop :=
  forall (h : list event) (cmd : Cmd) (name : string) (arg : list string),
    Args cmd = name :: arg ->
    existsb (String.eqb name) path = false ->
    exists text, run_process W h cmd = NotStarted text.

(** A Linux work station: [git] and [xdg-open] are executables on the search
    path; [command] is a builtin of the shell and not an executable, and
    there is no [open]. *)
Definition linux_path : list string := ["git"; "xdg-open"]%string.

Definition linux_world : World :=
  {| os_Getenv := fun _ => ""%string;
     run_process := fun _ cmd =>
       match Args cmd with
       | name :: _ =>
         if existsb (String.eqb name) linux_path
         then Exited 0 ""
         else NotStarted ("exec: " ++ name ++ ": executable file not found in $PATH")
       | [] => NotStarted "exec: no command"
       end;
     list_projects := fun _ _ _ => ([], None);
     list_merge_requests := fun _ _ _ _ => ([], None) |}.
(** * Properties *)

(** ** Slices, prefixes and suffixes *)

Section StringFacts.

Lemma length_app (a b : string) :
  String.length (a ++ b) = String.length a + String.length b.
Proof. induction a as [|c a IH]; simpl; [reflexivity | now rewrite IH]. Qed.

Lemma app_assoc_s (a b c : string) : ((a ++ b) ++ c = a ++ (b ++ c))%string.
Proof. induction a as [|x a IH]; simpl; [reflexivity | now rewrite IH]. Qed.

Lemma app_empty_r (a : string) : (a ++ "")%string = a.
Proof. induction a as [|x a IH]; simpl; [reflexivity | now rewrite IH]. Qed.

Lemma slice_to_app (a b : string) : slice_to (a ++ b) (String.length a) = a.
Proof. induction a as [|c a IH]; simpl; [reflexivity | now rewrite IH]. Qed.

Lemma slice_from_app (a b : string) : slice_from (a ++ b) (String.length a) = b.
Proof. induction a as [|c a IH]; simpl; [reflexivity | exact IH]. Qed.

Lemma slice_to_from (s : string) (i : nat) :
  (slice_to s i ++ slice_from s i)%string = s.
Proof.
  revert s; induction i as [|i IH]; intros [|c s]; simpl; try reflexivity.
  now rewrite IH.
Qed.

Lemma slice_to_length (s : string) (i : nat) :
  i <= String.length s -> String.length (slice_to s i) = i.
Proof.
  revert s; induction i as [|i IH]; intros [|c s]; simpl; intros H;
    try reflexivity; try lia.
  rewrite IH; [reflexivity | lia].
Qed.

Lemma HasPrefix_app (a b : string) : HasPrefix (a ++ b) a = true.
Proof.
  unfold HasPrefix. rewrite length_app, slice_to_app, String.eqb_refl.
  rewrite andb_true_r. apply Nat.leb_le. lia.
Qed.

Lemma HasSuffix_app (a b : string) : HasSuffix (a ++ b) b = true.
Proof.
  unfold HasSuffix. rewrite length_app.
  replace (String.length a + String.length b - String.length b)
    with (String.length a) by lia.
  rewrite slice_from_app, String.eqb_refl, andb_true_r.
  apply Nat.leb_le. lia.
Qed.

(** [HasSuffix] says what its name says. *)
Lemma HasSuffix_iff (s suffix : string) :
  HasSuffix s suffix = true <-> exists a, s = (a ++ suffix)%string.
Proof.
  split.
  - unfold HasSuffix. intros H. apply andb_true_iff in H as [_ H].
    apply String.eqb_eq in H.
    set (n := String.length s - String.length suffix) in *.
    exists (slice_to s n). rewrite <- H. symmetry. apply slice_to_from.
  - intros [a ->]. apply HasSuffix_app.
Qed.

Lemma HasPrefix_iff (s prefix : string) :
  HasPrefix s prefix = true <-> exists b, s = (prefix ++ b)%string.
Proof.
  split.
  - unfold HasPrefix. intros H. apply andb_true_iff in H as [_ H].
    apply String.eqb_eq in H.
    set (n := String.length prefix) in *.
    exists (slice_from s n). rewrite <- H. symmetry. apply slice_to_from.
  - intros [b ->]. apply HasPrefix_app.
Qed.

Lemma TrimSuffix_app (a b : string) : TrimSuffix (a ++ b) b = a.
Proof.
  unfold TrimSuffix. rewrite HasSuffix_app, length_app.
  replace (String.length a + String.length b - String.length b)
    with (String.length a) by lia.
  apply slice_to_app.
Qed.

Lemma TrimPrefix_app (a b : string) : TrimPrefix (a ++ b) a = b.
Proof. unfold TrimPrefix. rewrite HasPrefix_app. apply slice_from_app. Qed.

Lemma contains_app (c : ascii) (a b : string) :
  contains c (a ++ b) = contains c a || contains c b.
Proof.
  induction a as [|d a IH]; simpl; [reflexivity|].
  now rewrite IH, orb_assoc.
Qed.

(** A byte that occurs has a first occurrence. *)
Lemma contains_first (c : ascii) (s : string) :
  contains c s = true ->
  exists a b, s = (a ++ String c b)%string /\ contains c a = false.
Proof.
  induction s as [|d s IH]; simpl; [discriminate|].
  destruct (Ascii.eqb d c) eqn:E; simpl.
  - apply Ascii.eqb_eq in E; subst d. intros _. now exists ""%string, s.
  - intros H. destruct (IH H) as (a & b & -> & Ha).
    exists (String d a), b. simpl. now rewrite E, Ha.
Qed.

Lemma HasPrefix_byte (c d : ascii) (s : string) :
  HasPrefix (String d s) (String c "") = Ascii.eqb d c.
Proof.
  unfold HasPrefix; simpl.
  destruct (Ascii.eqb d c) eqn:E; [reflexivity|].
  reflexivity.
Qed.

Lemma Index_absent (c : ascii) (s : string) :
  contains c s = false -> Index s (String c "") = (-1)%Z.
Proof.
  induction s as [|d s IH]; [reflexivity|].
  simpl contains. intros H. apply orb_false_iff in H as [E H].
  cbn [Index]. rewrite HasPrefix_byte, E, (IH H). reflexivity.
Qed.

Lemma Index_first (c : ascii) (a b : string) :
  contains c a = false ->
  Index (a ++ String c b) (String c "") = Z.of_nat (String.length a).
Proof.
  induction a as [|d a IH]; intros H.
  - cbn [append Index]. now rewrite HasPrefix_byte, Ascii.eqb_refl.
  - simpl contains in H. apply orb_false_iff in H as [E H].
    cbn [append Index]. rewrite HasPrefix_byte, E, (IH H).
    destruct (Z.ltb_spec (Z.of_nat (String.length a)) 0); [lia|].
    cbn [String.length]. lia.
Qed.

(** [SplitN(s, sep, 2)] for a one-byte separator that does not occur. *)
Lemma SplitN_2_absent (c : ascii) (s : string) :
  contains c s = false -> SplitN s (String c "") 2 = [s].
Proof.
  intros H. unfold SplitN, genSplit. cbn [Z.eqb String.eqb Z.ltb Z.compare].
  destruct (Z.of_nat (String.length s) + 1 <? 2)%Z;
    destruct (Z.to_nat _) as [|k]; cbn [genSplit_loop];
    try reflexivity; now rewrite (Index_absent _ _ H).
Qed.

(** [SplitN(s, sep, 2)] cuts at the first occurrence of a one-byte
    separator. *)
Lemma SplitN_2_first (c : ascii) (a b : string) :
  contains c a = false ->
  SplitN (a ++ String c b) (String c "") 2 = [a; b].
Proof.
  intros H. unfold SplitN, genSplit. cbn [Z.eqb String.eqb Z.ltb Z.compare].
  rewrite length_app. cbn [String.length].
  destruct (Z.ltb_spec (Z.of_nat (String.length a + S (String.length b)) + 1) 2);
    [lia|].
  change (Z.to_nat (2 - 1)) with 1. cbn [genSplit_loop].
  rewrite (Index_first _ _ _ H).
  destruct (Z.ltb_spec (Z.of_nat (String.length a)) 0); [lia|].
  rewrite Nat2Z.id, slice_to_app. cbn [String.length].
  replace (String.length a + 1) with (String.length (a ++ String c "")).
  - rewrite <- (slice_from_app (a ++ String c "") b) at 2.
    rewrite app_assoc_s. reflexivity.
  - rewrite length_app. reflexivity.
Qed.

End StringFacts.

Section ReplaceFacts.

Lemma Count_absent (c : ascii) (s : string) :
  contains c s = false -> Count s (String c "") = 0.
Proof.
  intros H. unfold Count. cbn [String.eqb].
  destruct (String.length s); cbn [Count_loop]; [reflexivity|].
  now rewrite (Index_absent _ _ H).
Qed.

Lemma Count_present (c : ascii) (a b : string) :
  contains c a = false ->
  exists k, Count (a ++ String c b) (String c "") = S k.
Proof.
  intros H. unfold Count. cbn [String.eqb].
  rewrite length_app. cbn [String.length]. rewrite Nat.add_succ_r.
  cbn [Count_loop]. rewrite (Index_first _ _ _ H).
  destruct (Z.ltb_spec (Z.of_nat (String.length a)) 0); [lia|].
  eexists; reflexivity.
Qed.

(** [Replace(s, old, new, 1)] leaves a string without [old] as it is. *)
Lemma Replace_1_absent (c d : ascii) (s : string) :
  contains c s = false -> Replace s (String c "") (String d "") 1 = s.
Proof.
  intros H. unfold Replace. rewrite (Count_absent _ _ H).
  destruct (_ || _); reflexivity.
Qed.

(** [Replace(s, old, new, 1)] rewrites the first occurrence only. *)
Lemma Replace_1_first (c d : ascii) (a b : string) :
  c <> d -> contains c a = false ->
  Replace (a ++ String c b) (String c "") (String d "") 1
  = (a ++ String d b)%string.
Proof.
  intros Hcd H. unfold Replace.
  destruct (Count_present c a b H) as [k ->].
  assert (E : Ascii.eqb c d = false) by now apply Ascii.eqb_neq.
  cbn [String.eqb]. rewrite E. cbn [orb Z.eqb Nat.eqb Z.ltb Z.compare].
  destruct (Z.ltb_spec (Z.of_nat (S k)) 1); [lia|].
  change (Z.to_nat 1) with 1. cbn [Replace_loop String.length Nat.eqb].
  rewrite (Index_first _ _ _ H), Nat2Z.id, slice_to_app.
  replace (String.length a + 1) with (String.length (a ++ String c "")).
  - replace (a ++ String c b)%string with ((a ++ String c "") ++ b)%string
      by (rewrite app_assoc_s; reflexivity).
    rewrite slice_from_app. reflexivity.
  - rewrite length_app. reflexivity.
Qed.

End ReplaceFacts.

(** ** Parsing the remote URL *)

Lemma index_0 {A : Type} (x : A) (l : list A) : index (x :: l) 0 = Ret x.
Proof. reflexivity. Qed.

Lemma index_1 {A : Type} (x y : A) (l : list A) : index (x :: y :: l) 1 = Ret y.
Proof. reflexivity. Qed.

Lemma index_1_single {A : Type} (x : A) :
  index [x] 1 = Panic (index_out_of_range 1 1).
Proof. reflexivity. Qed.

(** Org: the text between the first [":"] and the next ["/"], or all that
    follows the [":"] when no ["/"] does. *)
Lemma parseRepoURLProjectOrg_cut (a org rest : string) :
  contains ":" a = false -> contains "/" org = false ->
  parseRepoURLProjectOrg (a ++ ":" ++ org ++ "/" ++ rest) = Ret org.
Proof.
  intros Ha Ho. unfold parseRepoURLProjectOrg.
  change (a ++ ":" ++ org ++ "/" ++ rest)%string
    with (a ++ String ":" (org ++ String "/" rest))%string.
  rewrite (SplitN_2_first ":" a _ Ha), index_1. cbn [obind].
  rewrite (SplitN_2_first "/" org rest Ho). reflexivity.
Qed.

Lemma parseRepoURLProjectName_cut (a org rest : string) :
  contains ":" a = false -> contains "/" org = false ->
  parseRepoURLProjectName (a ++ ":" ++ org ++ "/" ++ rest)
  = Ret (TrimSuffix rest ".git").
Proof.
  intros Ha Ho. unfold parseRepoURLProjectName.
  change (a ++ ":" ++ org ++ "/" ++ rest)%string
    with (a ++ String ":" (org ++ String "/" rest))%string.
  rewrite (SplitN_2_first ":" a _ Ha), index_1. cbn [obind].
  rewrite (SplitN_2_first "/" org rest Ho), index_1. reflexivity.
Qed.

Lemma parseRepoURLProjectURL_cut (user host path : string) :
  contains "@" user = false -> contains ":" host = false ->
  parseRepoURLProjectURL (user ++ "@" ++ host ++ ":" ++ path)
  = Ret ("https://" ++ TrimSuffix (host ++ "/" ++ path) ".git")%string.
Proof.
  intros Hu Hh. unfold parseRepoURLProjectURL.
  change (user ++ "@" ++ host ++ ":" ++ path)%string
    with (user ++ String "@" (host ++ String ":" path))%string.
  rewrite (SplitN_2_first "@" user _ Hu), index_1. cbn [obind].
  rewrite (Replace_1_first ":" "/" host path); [reflexivity | discriminate | exact Hh].
Qed.

(** C1. For a remote [user@host:org/name.git] (no ["@"] or [":"] in [user],
    no [":"] in [host], no ["/"] in [org]: the separators separate), the
    three parsing operations give [org], [name] and
    [https://host/org/name]; for [git@github.com:minond/git-open.git] they
    give [minond], [git-open] and [https://github.com/minond/git-open]. *)
Theorem parse_ssh_remote (user host org name : string) :
  contains "@" user = false -> contains ":" user = false ->
  contains ":" host = false -> contains "/" org = false ->
  let rawurl := (user ++ "@" ++ host ++ ":" ++ org ++ "/" ++ name ++ ".git")%string in
  (parseRepoURLProjectOrg rawurl = Ret org
   /\ parseRepoURLProjectName rawurl = Ret name
   /\ parseRepoURLProjectURL rawurl
      = Ret ("https://" ++ host ++ "/" ++ org ++ "/" ++ name)%string)
  /\ (parseRepoURLProjectName "git@github.com:minond/git-open.git" = Ret "git-open"
      /\ parseRepoURLProjectOrg "git@github.com:minond/git-open.git" = Ret "minond"
      /\ parseRepoURLProjectURL "git@github.com:minond/git-open.git"
         = Ret "https://github.com/minond/git-open").
Proof.
  intros Hu1 Hu2 Hh Ho rawurl. split; [|repeat split; reflexivity].
  assert (Ha : contains ":" (user ++ "@" ++ host) = false).
  { rewrite contains_app, Hu2. cbn [orb]. cbn [append contains]. now rewrite Hh. }
  assert (E : rawurl
              = ((user ++ "@" ++ host) ++ ":" ++ org ++ "/" ++ name ++ ".git")%string).
  { unfold rawurl. rewrite app_assoc_s. reflexivity. }
  repeat split.
  - rewrite E. now apply parseRepoURLProjectOrg_cut.
  - rewrite E, parseRepoURLProjectName_cut by assumption.
    now rewrite TrimSuffix_app.
  - unfold rawurl. rewrite parseRepoURLProjectURL_cut by assumption.
    do 2 f_equal.
    replace (host ++ "/" ++ org ++ "/" ++ name ++ ".git")%string
      with ((host ++ "/" ++ org ++ "/" ++ name) ++ ".git")%string.
    + apply TrimSuffix_app.
    + rewrite !app_assoc_s. reflexivity.
Qed.

Lemma parse_ssh_remote_witness :
  parseRepoURLProjectOrg "git@gitlab.mx.com:mx/atlas.git" = Ret "mx"
  /\ parseRepoURLProjectName "git@gitlab.mx.com:mx/atlas.git" = Ret "atlas"
  /\ parseRepoURLProjectURL "git@gitlab.mx.com:mx/atlas.git"
     = Ret "https://gitlab.mx.com/mx/atlas".
Proof.
  exact (proj1 (parse_ssh_remote "git" "gitlab.mx.com" "mx" "atlas"
                                 eq_refl eq_refl eq_refl eq_refl)).
Defined.

(** *** Suffixes behind a separator *)

Lemma app_eq_app_s (a b c d : string) :
  (a ++ b = c ++ d)%string ->
  (exists e, a = (c ++ e)%string /\ d = (e ++ b)%string)
  \/ (exists e, c = (a ++ e)%string /\ b = (e ++ d)%string).
Proof.
  revert c. induction a as [|x a IH]; intros c H.
  - right. exists c. split; [reflexivity | exact H].
  - destruct c as [|y c].
    + left. exists (String x a). split; [reflexivity | symmetry; exact H].
    + cbn [append] in H. injection H as -> H.
      destruct (IH c H) as [(e & -> & ->) | (e & -> & ->)].
      * left. exists e. split; reflexivity.
      * right. exists e. split; reflexivity.
Qed.

(** A suffix that does not contain the separator lies behind it. *)
Lemma HasSuffix_past_sep (c : ascii) (p rest suffix : string) :
  contains c suffix = false ->
  HasSuffix (p ++ String c rest) suffix = HasSuffix rest suffix.
Proof.
  intros Hc. apply eq_true_iff_eq. rewrite !HasSuffix_iff. split.
  - intros [a H]. apply app_eq_app_s in H as [(e & _ & H) | (e & _ & H)].
    + rewrite H, contains_app in Hc. apply orb_false_iff in Hc as [_ Hc].
      cbn [contains] in Hc. now rewrite Ascii.eqb_refl in Hc.
    + destruct e as [|x e]; cbn [append] in H.
      * rewrite <- H in Hc. cbn [contains] in Hc.
        now rewrite Ascii.eqb_refl in Hc.
      * injection H as _ H. now exists e.
  - intros [r ->]. exists (p ++ String c r)%string.
    rewrite app_assoc_s. reflexivity.
Qed.

Lemma TrimSuffix_past_sep (c : ascii) (p rest suffix : string) :
  contains c suffix = false ->
  TrimSuffix (p ++ String c rest) suffix
  = (p ++ String c (TrimSuffix rest suffix))%string.
Proof.
  intros Hc. destruct (HasSuffix rest suffix) eqn:E.
  - apply HasSuffix_iff in E as [r ->]. rewrite TrimSuffix_app.
    replace (p ++ String c (r ++ suffix))%string
      with ((p ++ String c r) ++ suffix)%string
      by (rewrite app_assoc_s; reflexivity).
    apply TrimSuffix_app.
  - unfold TrimSuffix. now rewrite (HasSuffix_past_sep _ _ _ _ Hc), E.
Qed.

(** *** The three parsers agree (C10) *)


(** C10, as amended. For a remote [user@host:path] whose [path] contains a
    ["/"] ([user] without ["@"] and [":"], [host] without [":"]), the home
    URL is ["https://" ++ host ++ "/" ++ org ++ "/" ++ name] for the org and
    the name that the other two parsers return. *)
Theorem parse_consistent_with_slash (user host path : string) :
  contains "@" user = false -> contains ":" user = false ->
  contains ":" host = false -> contains "/" path = true ->
  parse_consistent host (user ++ "@" ++ host ++ ":" ++ path).
Proof.
  intros Hu1 Hu2 Hh Hp.
  destruct (contains_first _ _ Hp) as (org & rest & -> & Ho).
  assert (Ha : contains ":" (user ++ "@" ++ host) = false).
  { rewrite contains_app, Hu2. cbn [orb]. cbn [append contains]. now rewrite Hh. }
  exists org, (TrimSuffix rest ".git"). repeat split.
  - replace (user ++ "@" ++ host ++ ":" ++ org ++ String "/" rest)%string
      with ((user ++ "@" ++ host) ++ ":" ++ org ++ "/" ++ rest)%string
      by (rewrite app_assoc_s; reflexivity).
    now apply parseRepoURLProjectOrg_cut.
  - replace (user ++ "@" ++ host ++ ":" ++ org ++ String "/" rest)%string
      with ((user ++ "@" ++ host) ++ ":" ++ org ++ "/" ++ rest)%string
      by (rewrite app_assoc_s; reflexivity).
    now apply parseRepoURLProjectName_cut.
  - rewrite parseRepoURLProjectURL_cut by assumption. do 2 f_equal.
    replace (host ++ "/" ++ org ++ String "/" rest)%string
      with ((host ++ "/" ++ org) ++ String "/" rest)%string
      by (rewrite app_assoc_s; reflexivity).
    rewrite (TrimSuffix_past_sep "/") by reflexivity.
    rewrite app_assoc_s. reflexivity.
Qed.

Lemma parse_consistent_with_slash_witness :
  parse_consistent "gitlab.mx.com" "git@gitlab.mx.com:mx/tools/atlas".
Proof.
  exact (parse_consistent_with_slash "git" "gitlab.mx.com" "mx/tools/atlas"
                                     eq_refl eq_refl eq_refl eq_refl).
Defined.

(** C10 as stated fails: [git@host:repo.git] is of the form
    [user@host:path], the home URL and the org are returned, and the name
    parser panics on [orgAndName[1]]. *)
Lemma parse_consistent_fails_without_slash :
  (contains "@" "git" = false /\ contains ":" "git" = false
   /\ contains ":" "host" = false)
  /\ parseRepoURLProjectURL ("git" ++ "@" ++ "host" ++ ":" ++ "repo.git")
     = Ret "https://host/repo"
  /\ parseRepoURLProjectOrg ("git" ++ "@" ++ "host" ++ ":" ++ "repo.git")
     = Ret "repo.git"
  /\ parseRepoURLProjectName ("git" ++ "@" ++ "host" ++ ":" ++ "repo.git")
     = Panic (index_out_of_range 1 1)
  /\ ~ parse_consistent "host" ("git" ++ "@" ++ "host" ++ ":" ++ "repo.git").
Proof.
  repeat split; try reflexivity.
  intros (org & name & _ & H & _). vm_compute in H. discriminate H.
Qed.

(** *** Malformed remotes (C2) *)


Lemma before_first_absent (c : ascii) (s : string) :
  contains c s = false -> before_first c s = s.
Proof.
  induction s as [|d s IH]; cbn [contains before_first]; [reflexivity|].
  intros H. apply orb_false_iff in H as [E H]. now rewrite E, IH.
Qed.

Lemma contains_before_first (c : ascii) (s : string) :
  contains c (before_first c s) = false.
Proof.
  induction s as [|d s IH]; cbn [before_first]; [reflexivity|].
  destruct (Ascii.eqb d c) eqn:E; [reflexivity|].
  cbn [contains]. now rewrite E, IH.
Qed.

Lemma cut_at_first (c : ascii) (s : string) :
  contains c s = true ->
  s = (before_first c s ++ String c (after_first c s))%string.
Proof.
  induction s as [|d s IH]; cbn [contains before_first after_first];
    [discriminate|].
  destruct (Ascii.eqb d c) eqn:E; cbn [orb append].
  - apply Ascii.eqb_eq in E. now subst d.
  - intros H. now rewrite <- (IH H).
Qed.

(** [SplitN(s, sep, 2)] for a one-byte separator, in all cases. *)
Lemma SplitN_2_byte (c : ascii) (s : string) :
  SplitN s (String c "") 2
  = if contains c s then [before_first c s; after_first c s] else [s].
Proof.
  destruct (contains c s) eqn:E.
  - rewrite (cut_at_first c s E) at 1.
    apply SplitN_2_first, contains_before_first.
  - now apply SplitN_2_absent.
Qed.

(** *** [Split] on a one-byte separator *)

Lemma Index_byte (c : ascii) (s : string) :
  Index s (String c "")
  = if contains c s then Z.of_nat (String.length (before_first c s)) else (-1)%Z.
Proof.
  destruct (contains c s) eqn:E.
  - rewrite (cut_at_first c s E) at 1.
    apply Index_first, contains_before_first.
  - now apply Index_absent.
Qed.

Lemma count_byte_0 (c : ascii) (s : string) :
  count_byte c s = 0 <-> contains c s = false.
Proof.
  induction s as [|d s IH]; cbn [count_byte contains]; [tauto|].
  destruct (Ascii.eqb d c); cbn [orb Nat.add]; [split; discriminate | exact IH].
Qed.

Lemma count_byte_after_first (c : ascii) (s : string) :
  contains c s = true -> count_byte c s = S (count_byte c (after_first c s)).
Proof.
  induction s as [|d s IH]; cbn [count_byte contains after_first]; [discriminate|].
  destruct (Ascii.eqb d c); cbn [orb Nat.add]; [reflexivity | exact IH].
Qed.

Lemma split_byte_cut (c : ascii) (s : string) :
  split_byte c s
  = if contains c s
    then before_first c s :: split_byte c (after_first c s)
    else [s].
Proof.
  induction s as [|d s IH]; cbn [split_byte contains before_first after_first];
    [reflexivity|].
  destruct (Ascii.eqb d c); cbn [orb]; [reflexivity|].
  rewrite IH. destruct (contains c s); reflexivity.
Qed.

Lemma slices_at_first (c : ascii) (s : string) :
  contains c s = true ->
  slice_to s (String.length (before_first c s)) = before_first c s
  /\ slice_from s (String.length (before_first c s) + 1) = after_first c s.
Proof.
  intros E. pose proof (cut_at_first c s E) as Hs.
  set (b := before_first c s) in *. set (a := after_first c s) in *.
  clearbody b a. subst s. split.
  - apply slice_to_app.
  - replace (String.length b + 1) with (String.length (b ++ String c "")).
    + replace (b ++ String c a)%string with ((b ++ String c "") ++ a)%string
        by (rewrite app_assoc_s; reflexivity).
      apply slice_from_app.
    + rewrite length_app. reflexivity.
Qed.

Lemma genSplit_loop_byte (c : ascii) (k : nat) (s : string) :
  count_byte c s = k -> genSplit_loop k s (String c "") = split_byte c s.
Proof.
  revert s. induction k as [|k IH]; intros s Hk; rewrite split_byte_cut.
  - apply count_byte_0 in Hk. now rewrite Hk.
  - assert (E : contains c s = true).
    { destruct (contains c s) eqn:E; [reflexivity|].
      apply count_byte_0 in E. congruence. }
    rewrite E. cbn [genSplit_loop]. rewrite Index_byte, E.
    destruct (Z.ltb_spec (Z.of_nat (String.length (before_first c s))) 0); [lia|].
    rewrite Nat2Z.id. cbn [String.length].
    destruct (slices_at_first c s E) as [-> ->].
    f_equal. apply IH. rewrite (count_byte_after_first c s E) in Hk. congruence.
Qed.

Lemma Count_loop_byte (c : ascii) (fuel : nat) (s : string) :
  String.length s <= fuel -> Count_loop fuel s (String c "") = count_byte c s.
Proof.
  revert s. induction fuel as [|fuel IH]; intros s Hlen.
  - destruct s; [reflexivity | cbn [String.length] in Hlen; lia].
  - cbn [Count_loop]. rewrite Index_byte.
    destruct (contains c s) eqn:E.
    + destruct (Z.ltb_spec (Z.of_nat (String.length (before_first c s))) 0); [lia|].
      rewrite Nat2Z.id. cbn [String.length].
      destruct (slices_at_first c s E) as [_ ->].
      rewrite (count_byte_after_first c s E). f_equal. apply IH.
      rewrite (cut_at_first c s E), length_app in Hlen.
      cbn [String.length] in Hlen. lia.
    + cbn [Z.ltb Z.compare]. symmetry. now apply count_byte_0.
Qed.

Lemma count_byte_le (c : ascii) (s : string) : count_byte c s <= String.length s.
Proof.
  induction s as [|d s IH]; cbn [count_byte String.length]; [lia|].
  destruct (Ascii.eqb d c); lia.
Qed.

(** [Split] cuts at every occurrence of a one-byte separator: the rounds
    that [Count] allows are the rounds that are needed. *)
Lemma Split_byte (c : ascii) (s : string) :
  Split s (String c "") = split_byte c s.
Proof.
  unfold Split, genSplit. cbn [Z.eqb String.eqb Z.ltb Z.compare].
  unfold Count. cbn [String.eqb]. rewrite Count_loop_byte by lia.
  pose proof (count_byte_le c s) as Hle.
  destruct (Z.ltb_spec (Z.of_nat (String.length s) + 1)
                       (Z.of_nat (count_byte c s) + 1)); [lia|].
  replace (Z.to_nat (Z.of_nat (count_byte c s) + 1 - 1)) with (count_byte c s) by lia.
  now apply genSplit_loop_byte.
Qed.

Example Split_sample_remotes :
  Split sample_remotes LF
  = [("origin" ++ TAB ++ "git@gitlab.mx.com:mx/atlas.git (fetch)")%string;
     ("origin" ++ TAB ++ "git@gitlab.mx.com:mx/atlas.git (push)")%string;
     ""%string].
Proof. vm_compute. reflexivity. Qed.

Example Fields_sample_remote :
  Fields ("origin" ++ TAB ++ "git@gitlab.mx.com:mx/atlas.git (push)")
  = ["origin"; "git@gitlab.mx.com:mx/atlas.git"; "(push)"]%string.
Proof. vm_compute. reflexivity. Qed.

(** White space is Unicode's: a no-break space (bytes C2 A0) is trimmed and
    separates fields like a blank. *)
Example TrimSpace_no_break_space :
  let nbsp := String (ascii_of_nat 194) (String (ascii_of_nat 160) "") in
  TrimSpace (TAB ++ " feature/login" ++ nbsp ++ " ") = "feature/login"
  /\ Fields ("origin" ++ nbsp ++ "url (push)") = ["origin"; "url"; "(push)"]%string.
Proof. vm_compute. split; reflexivity. Qed.

(** C2, as amended. The parsers do not validate the remote; each one fails
    only by the run-time panic of an index expression, and exactly when a
    separator that it splits on is missing: [":"] for the org, [":"] or a
    ["/"] after the first [":"] for the name, ["@"] for the home URL.  On
    every other input, whatever the number of [":"] and ["/"], they return
    the result written here. *)
Theorem parse_panics_exactly_without_separator (rawurl : string) :
  parseRepoURLProjectOrg rawurl
  = (if contains ":" rawurl
     then Ret (before_first "/" (after_first ":" rawurl))
     else Panic (index_out_of_range 1 1))
  /\ parseRepoURLProjectName rawurl
     = (if contains ":" rawurl && contains "/" (after_first ":" rawurl)
        then Ret (TrimSuffix (after_first "/" (after_first ":" rawurl)) ".git")
        else Panic (index_out_of_range 1 1))
  /\ parseRepoURLProjectURL rawurl
     = (if contains "@" rawurl
        then Ret ("https://"
                  ++ TrimSuffix (Replace (after_first "@" rawurl) ":" "/" 1) ".git")%string
        else Panic (index_out_of_range 1 1)).
Proof.
  unfold parseRepoURLProjectOrg, parseRepoURLProjectName, parseRepoURLProjectURL.
  rewrite !SplitN_2_byte.
  repeat split.
  - destruct (contains ":" rawurl); [|reflexivity].
    rewrite index_1. cbn [obind]. rewrite SplitN_2_byte.
    destruct (contains "/" (after_first ":" rawurl)) eqn:E; [reflexivity|].
    rewrite index_0. now rewrite before_first_absent.
  - destruct (contains ":" rawurl); [|reflexivity].
    rewrite index_1. cbn [obind andb]. rewrite SplitN_2_byte.
    destruct (contains "/" (after_first ":" rawurl)); reflexivity.
  - destruct (contains "@" rawurl); reflexivity.
Qed.

(** C2 as stated fails.  [git@host:org/sub/name.git] breaks the invariant
    (two ["/"] after the [":"]) and all three parsers return a result;
    [origin] has no separator at all and the name parser reaches the index
    expression [hostAndProject[1]] on a slice of length 1. *)
Lemma malformed_remote_is_parsed :
  well_formed_remote "git@host:org/sub/name.git" = false
  /\ parseRepoURLProjectOrg "git@host:org/sub/name.git" = Ret "org"
  /\ parseRepoURLProjectName "git@host:org/sub/name.git" = Ret "sub/name"
  /\ parseRepoURLProjectURL "git@host:org/sub/name.git"
     = Ret "https://host/org/sub/name"
  /\ parseRepoURLProjectName "origin" = Panic (index_out_of_range 1 1).
Proof. repeat split; vm_compute; reflexivity. Qed.

(** ** Computations with effects *)

Lemma bind_Ret {A B : Type} (m : M A) (k : A -> M B) (h h' : list event) (a : A) :
  m h = (Ret a, h') -> bind m k h = k a h'.
Proof. intros H. unfold bind. now rewrite H. Qed.

Lemma index_nth {A : Type} (l : list A) (i : nat) (d : A) :
  i < List.length l -> index l i = Ret (nth i l d).
Proof.
  intros H. unfold index.
  destruct (nth_error l i) eqn:E.
  - now rewrite (nth_error_nth _ _ d E).
  - apply nth_error_None in E. lia.
Qed.

(** ** The branch resolver (C5) *)

Lemma getBranch_lines_find (lines : list string) :
  getBranch_lines lines
  = match find (fun line => HasPrefix line "*") lines with
    | Some line => (TrimSpace (TrimPrefix line "*"), None)
    | None => ("", Some (errors_New "unable to get current working branch"))
    end.
Proof.
  induction lines as [|line rest IH]; cbn [getBranch_lines find]; [reflexivity|].
  destruct (HasPrefix line "*"); [reflexivity | exact IH].
Qed.

(** C5. When [git branch] has run and printed [out], [getBranch] takes the
    first line of [out] that starts with ["*"] and returns it without that
    prefix and without the white space around the rest; when no line starts
    with ["*"] it returns the error "unable to get current working branch"
    (the specification's ResolutionError). *)
Theorem getBranch_first_marked_line (W : World) (h : list event) (out : string) :
  run_process W (h ++ [EvLog "getting current working branch"])
              (exec_Command "git" ["branch"]) = Exited 0 out ->
  getBranch W h
  = (Ret match find (fun line => HasPrefix line "*") (Split out LF) with
         | Some line => (TrimSpace (TrimPrefix line "*"), None)
         | None => ("", Some (errors_New "unable to get current working branch"))
         end,
     h ++ [EvLog "getting current working branch"]
       ++ [EvRun (exec_Command "git" ["branch"])]).
Proof.
  intros H. unfold getBranch, bind, log_Print, cmd_Run. rewrite H.
  cbn [Run_err Run_out Z.eqb ret]. rewrite getBranch_lines_find.
  now rewrite <- app_assoc.
Qed.

Lemma getBranch_first_marked_line_witness :
  getBranch (sample_world [] []) []
  = (Ret ("feature/login", None),
     [EvLog "getting current working branch";
      EvRun (exec_Command "git" ["branch"])]).
Proof.
  exact (getBranch_first_marked_line (sample_world [] []) [] sample_branches eq_refl).
Defined.

(** ** The remote parser (C7) *)

Lemma getProjectRemote_lines_find (lines : list string) :
  getProjectRemote_lines lines
  = Ret match find is_push_line lines with
        | Some line => (nth 1 (Fields line) "", None)
        | None => ("", Some (errors_New "unable to find remote push url"))
        end.
Proof.
  induction lines as [|line rest IH]; cbn [getProjectRemote_lines find];
    [reflexivity|].
  unfold is_push_line at 1.
  destruct (String.eqb line ""); cbn [negb andb]; [exact IH|].
  destruct (Nat.ltb_spec (List.length (Fields line)) 3) as [Hlt | Hge].
  - replace (Nat.leb 3 (List.length (Fields line))) with false
      by (symmetry; apply Nat.leb_gt; exact Hlt).
    exact IH.
  - replace (Nat.leb 3 (List.length (Fields line))) with true
      by (symmetry; apply Nat.leb_le; exact Hge).
    rewrite (index_nth _ 2 "") by lia. cbn [obind andb].
    destruct (String.eqb (nth 2 (Fields line) "") "(push)"); [|exact IH].
    rewrite (index_nth _ 1 "") by lia. reflexivity.
Qed.

(** C7. When [git remote -v] has run and printed [out], [getProjectRemote]
    returns the second field (the URL) of the first line of [out] that is
    not empty, has at least three white-space separated fields and has
    ["(push)"] as the third; when there is no such line it returns the
    error "unable to find remote push url" (the specification's
    ResolutionError).  No index expression of the scan panics. *)
Theorem getProjectRemote_first_push_line (W : World) (h : list event) (out : string) :
  run_process W h (exec_Command "git" ["remote"; "-v"]) = Exited 0 out ->
  getProjectRemote W h
  = (Ret match find is_push_line (Split out LF) with
         | Some line => (nth 1 (Fields line) "", None)
         | None => ("", Some (errors_New "unable to find remote push url"))
         end,
     h ++ [EvRun (exec_Command "git" ["remote"; "-v"])]).
Proof.
  intros H. unfold getProjectRemote, bind, cmd_Run. rewrite H.
  cbn [Run_err Run_out Z.eqb lift]. now rewrite getProjectRemote_lines_find.
Qed.

Lemma getProjectRemote_first_push_line_witness :
  getProjectRemote (sample_world [] []) []
  = (Ret ("git@gitlab.mx.com:mx/atlas.git", None),
     [EvRun (exec_Command "git" ["remote"; "-v"])]).
Proof.
  exact (getProjectRemote_first_push_line (sample_world [] []) [] sample_remotes eq_refl).
Defined.

(** ** Request lookup (C6) *)

(** C6. When the search for open merge requests of the branch answers with
    the list [mrs] and no error, [getMRURL] returns the error
    "no matching MRs found" (the specification's NotFoundError) for the
    empty list, and otherwise the [WebURL] of the first element of [mrs] as
    it is, whatever follows it in the list. *)
Theorem getMRURL_first_result (W : World) (client : Client)
        (projID branch : string) (h : list event) (mrs : list MergeRequest) :
  let line := EvLog ("finding MRs for project id(" ++ projID ++ ") on branch " ++ branch) in
  let opt := {| SourceBranch := Some branch; State := Some "opened";
                View := Some "simple" |} in
  list_merge_requests W (h ++ [line]) client projID opt = (mrs, None) ->
  getMRURL W client projID branch h
  = (Ret match mrs with
         | [] => ("", Some (errors_New "no matching MRs found"))
         | mr :: _ => (WebURL mr, None)
         end,
     h ++ [line] ++ [EvListProjectMergeRequests client projID opt]).
Proof.
  intros line opt H.
  unfold getMRURL, bind, log_Print, MergeRequests_ListProjectMergeRequests, stringptr.
  fold line. fold opt. rewrite H, <- app_assoc.
  destruct mrs as [|mr rest]; reflexivity.
Qed.

Lemma getMRURL_first_result_witness :
  fst (getMRURL (sample_world []
                   [ {| WebURL := "https://gitlab.mx.com/mx/atlas/merge_requests/9" |};
                     {| WebURL := "https://gitlab.mx.com/mx/atlas/merge_requests/3" |};
                     {| WebURL := "https://gitlab.mx.com/mx/atlas/merge_requests/9" |} ])
                sample_client "42" "feature/login" [])
  = Ret ("https://gitlab.mx.com/mx/atlas/merge_requests/9", None).
Proof.
  exact (f_equal fst
           (getMRURL_first_result (sample_world [] _) sample_client "42"
                                  "feature/login" [] _ eq_refl)).
Defined.

(** ** Project lookup (C3, C4) *)

Lemma getProjectID_projs_find (projs : list Project) (org name : string) :
  getProjectID_projs projs org name
  = match find (has_repo_suffix org name) projs with
    | Some proj => (strconv.Itoa (ID proj), None)
    | None => ("", Some (errors_New "unable to find project"))
    end.
Proof.
  induction projs as [|proj rest IH]; cbn [getProjectID_projs find];
    [reflexivity|].
  unfold has_repo_suffix at 1, repo_suffix.
  destruct (HasSuffix _ _); [reflexivity | exact IH].
Qed.

(** The lookup of [main.go], once the name and the org are known and the
    search has answered. *)
Lemma getProjectID_run (W : World) (client : Client) (h h2 h3 : list event)
      (name org : string) (projs : list Project) :
  getProjectName W (h ++ [EvLog "getting gitlab project id"]) = (Ret (name, None), h2) ->
  getProjectOrg W h2 = (Ret (org, None), h3) ->
  list_projects W h3 client {| Search := Some name |} = (projs, None) ->
  getProjectID W client h
  = (Ret match projs with
         | [] => ("", Some (errors_New "got back no projects matching name"))
         | _ :: _ =>
           match find (has_repo_suffix org name) projs with
           | Some proj => (strconv.Itoa (ID proj), None)
           | None => ("", Some (errors_New "unable to find project"))
           end
         end,
     h3 ++ [EvListProjects client {| Search := Some name |}]).
Proof.
  intros Hname Horg Hprojs. unfold getProjectID.
  unfold bind at 1. unfold log_Print at 1.
  rewrite (bind_Ret _ _ _ _ _ Hname).
  rewrite (bind_Ret _ _ _ _ _ Horg).
  unfold bind, Projects_ListProjects, stringptr. rewrite Hprojs.
  destruct projs as [|proj rest]; [reflexivity|].
  cbn [List.length Nat.eqb ret]. now rewrite getProjectID_projs_find.
Qed.

(** The lookup of the earlier variant, once the name is known and the
    search has answered. *)
Lemma Earlier_getProjectID_run (W : World) (client : Client) (h h2 : list event)
      (name : string) (projs : list Project) :
  Earlier.getProjectName W (h ++ [EvLog "getting gitlab project id"])
  = (Ret (name, None), h2) ->
  list_projects W h2 client {| Search := Some name |} = (projs, None) ->
  Earlier.getProjectID W client h
  = (Ret match projs with
         | [] => ("", Some (errors_New "unable to find project"))
         | proj :: _ => (strconv.Itoa (ID proj), None)
         end,
     h2 ++ [EvListProjects client {| Search := Some name |}]).
Proof.
  intros Hname Hprojs. unfold Earlier.getProjectID.
  unfold bind at 1. unfold log_Print at 1.
  rewrite (bind_Ret _ _ _ _ _ Hname).
  unfold bind, Projects_ListProjects, stringptr. rewrite Hprojs.
  destruct projs as [|proj rest]; reflexivity.
Qed.

(** C3. When the remote has given the name and the org and the search by
    name answers with the list [projs] and no error, [getProjectID] returns
    the error "got back no projects matching name" for the empty list, the
    error "unable to find project" when no project's [SSHURLToRepo] ends
    with [org/name.git] (both the specification's NotFoundError), and
    otherwise the [ID], in decimal, of the first project of [projs] whose
    [SSHURLToRepo] ends so. *)
Theorem getProjectID_first_suffix_match
        (W : World) (client : Client) (h h2 h3 : list event)
        (name org : string) (projs : list Project) :
  getProjectName W (h ++ [EvLog "getting gitlab project id"]) = (Ret (name, None), h2) ->
  getProjectOrg W h2 = (Ret (org, None), h3) ->
  list_projects W h3 client {| Search := Some name |} = (projs, None) ->
  fst (getProjectID W client h)
  = Ret match projs with
        | [] => ("", Some (errors_New "got back no projects matching name"))
        | _ :: _ =>
          match find (fun proj => HasSuffix (SSHURLToRepo proj)
                                            (org ++ "/" ++ name ++ ".git"))
                     projs with
          | Some proj => (strconv.Itoa (ID proj), None)
          | None => ("", Some (errors_New "unable to find project"))
          end
        end.
Proof.
  intros Hname Horg Hprojs.
  now rewrite (getProjectID_run _ _ _ _ _ _ _ _ Hname Horg Hprojs).
Qed.

Lemma getProjectID_first_suffix_match_witness :
  fst (getProjectID (sample_world [atlas_fork; atlas; atlas_fork] [])
                    sample_client [])
  = Ret ("42", None).
Proof.
  generalize
    (getProjectID_first_suffix_match
       (sample_world [atlas_fork; atlas; atlas_fork] []) sample_client []
       [EvLog "getting gitlab project id";
        EvRun (exec_Command "git" ["remote"; "-v"])]
       [EvLog "getting gitlab project id";
        EvRun (exec_Command "git" ["remote"; "-v"]);
        EvRun (exec_Command "git" ["remote"; "-v"])]
       "atlas" "mx" [atlas_fork; atlas; atlas_fork]).
  vm_compute. intros H. apply H; reflexivity.
Defined.

(** C4. On the empty search result both variants of [getProjectID] return
    an error (with different texts), and on a result whose first project's
    [SSHURLToRepo] ends with [org/name.git] both return the [ID] of that
    project.  They differ elsewhere: when the fork comes first in the
    answer, [main.go] returns the project [42] of the remote and the
    earlier variant the fork [7]. *)
Theorem getProjectID_variants_agree :
  (forall (W : World) (client : Client) (h h2 h3 h2' : list event)
          (name org name' : string) (projs : list Project),
      getProjectName W (h ++ [EvLog "getting gitlab project id"])
      = (Ret (name, None), h2) ->
      getProjectOrg W h2 = (Ret (org, None), h3) ->
      list_projects W h3 client {| Search := Some name |} = (projs, None) ->
      Earlier.getProjectName W (h ++ [EvLog "getting gitlab project id"])
      = (Ret (name', None), h2') ->
      list_projects W h2' client {| Search := Some name' |} = (projs, None) ->
      match projs with
      | [] =>
        (exists e, fst (getProjectID W client h) = Ret ("", Some e))
        /\ (exists e, fst (Earlier.getProjectID W client h) = Ret ("", Some e))
      | proj :: _ =>
        HasSuffix (SSHURLToRepo proj) (org ++ "/" ++ name ++ ".git") = true ->
        fst (getProjectID W client h) = Ret (strconv.Itoa (ID proj), None)
        /\ fst (Earlier.getProjectID W client h) = Ret (strconv.Itoa (ID proj), None)
      end)
  /\ (fst (getProjectID (sample_world [atlas_fork; atlas] []) sample_client [])
      = Ret ("42", None)
      /\ fst (Earlier.getProjectID (sample_world [atlas_fork; atlas] []) sample_client [])
         = Ret ("7", None)).
Proof.
  split; [|split; vm_compute; reflexivity].
  intros W client h h2 h3 h2' name org name' projs Hname Horg Hprojs Hname' Hprojs'.
  rewrite (getProjectID_run _ _ _ _ _ _ _ _ Hname Horg Hprojs).
  rewrite (Earlier_getProjectID_run _ _ _ _ _ _ Hname' Hprojs').
  destruct projs as [|proj rest]; cbn [fst].
  - split; eexists; reflexivity.
  - intros Hsuf. split; [|reflexivity].
    cbn [find]. unfold has_repo_suffix at 1, repo_suffix. now rewrite Hsuf.
Qed.

Lemma getProjectID_variants_agree_witness :
  fst (getProjectID (sample_world [atlas; atlas_fork] []) sample_client [])
  = Ret ("42", None)
  /\ fst (Earlier.getProjectID (sample_world [atlas; atlas_fork] []) sample_client [])
     = Ret ("42", None).
Proof.
  generalize
    (proj1 getProjectID_variants_agree
       (sample_world [atlas; atlas_fork] []) sample_client []
       [EvLog "getting gitlab project id";
        EvRun (exec_Command "git" ["remote"; "-v"])]
       [EvLog "getting gitlab project id";
        EvRun (exec_Command "git" ["remote"; "-v"]);
        EvRun (exec_Command "git" ["remote"; "-v"])]
       [EvLog "getting gitlab project id";
        EvRun {| Args := ["git"; "remote"; "-v"]; Dir := Earlier.workdir |}]
       "atlas" "mx" "atlas" [atlas; atlas_fork]).
  vm_compute. intros H. apply H; reflexivity.
Defined.

(** ** Events are only added *)

Section Appends.

Variable W : World.

Lemma appends_ret {A : Type} (a : A) : appends (ret a).
Proof. intros h. exists []. cbn. now rewrite app_nil_r. Qed.

Lemma appends_lift {A : Type} (o : outcome A) : appends (lift o).
Proof. intros h. exists []. cbn. now rewrite app_nil_r. Qed.

Lemma appends_bind {A B : Type} (m : M A) (k : A -> M B) :
  appends m -> (forall a, appends (k a)) -> appends (bind m k).
Proof.
  intros Hm Hk h. destruct (Hm h) as [tr Htr]. unfold bind.
  destruct (m h) as [[a | p | code] h']; cbn [snd] in Htr; subst h'.
  - destruct (Hk a (h ++ tr)) as [tr' Htr']. exists (tr ++ tr').
    now rewrite Htr', app_assoc.
  - now exists tr.
  - now exists tr.
Qed.

Lemma appends_log_Print (text : string) : appends (log_Print text).
Proof. intros h. now exists [EvLog text]. Qed.

Lemma appends_log_Fatalf {A : Type} (text : string) :
  appends (@log_Fatalf A text).
Proof. intros h. now exists [EvLog text]. Qed.

Lemma appends_cmd_Run (cmd : Cmd) : appends (cmd_Run W cmd).
Proof. intros h. now exists [EvRun cmd]. Qed.

Lemma appends_ListProjects (client : Client) (opt : ListProjectsOptions) :
  appends (Projects_ListProjects W client opt).
Proof. intros h. now exists [EvListProjects client opt]. Qed.

Lemma appends_ListProjectMergeRequests
      (client : Client) (pid : string) (opt : ListProjectMergeRequestsOptions) :
  appends (MergeRequests_ListProjectMergeRequests W client pid opt).
Proof. intros h. now exists [EvListProjectMergeRequests client pid opt]. Qed.

Ltac appends_step :=
  first
    [ apply appends_ret | apply appends_lift | apply appends_log_Print
    | apply appends_log_Fatalf | apply appends_cmd_Run
    | apply appends_ListProjects | apply appends_ListProjectMergeRequests
    | apply appends_bind; [|intros ?]
    | match goal with
      | |- appends (match ?x with _ => _ end) => destruct x
      end ].

Ltac appends_all := repeat appends_step.

Lemma appends_must (err : option error) : appends (must err).
Proof. unfold must. appends_all. Qed.

Lemma appends_stringmust (call : M (string * option error)) :
  appends call -> appends (stringmust call).
Proof.
  intros H. unfold stringmust. apply appends_bind; [exact H|].
  intros [str err]. apply appends_bind; [apply appends_must|].
  intros _. apply appends_ret.
Qed.

Lemma appends_getBranch : appends (getBranch W).
Proof. unfold getBranch. appends_all. Qed.

Lemma appends_getProjectRemote : appends (getProjectRemote W).
Proof. unfold getProjectRemote. appends_all. Qed.

Lemma appends_getProjectName : appends (getProjectName W).
Proof.
  unfold getProjectName. apply appends_bind; [apply appends_getProjectRemote|].
  intros ?. appends_all.
Qed.

Lemma appends_getProjectOrg : appends (getProjectOrg W).
Proof.
  unfold getProjectOrg. apply appends_bind; [apply appends_getProjectRemote|].
  intros ?. appends_all.
Qed.

Lemma appends_getProjectHomeURL : appends (getProjectHomeURL W).
Proof.
  unfold getProjectHomeURL. apply appends_bind; [apply appends_getProjectRemote|].
  intros ?. appends_all.
Qed.

Lemma appends_getProjectID (client : Client) : appends (getProjectID W client).
Proof.
  unfold getProjectID. apply appends_bind; [apply appends_log_Print|]. intros _.
  apply appends_bind; [apply appends_getProjectName|]. intros [name [e|]];
    [apply appends_ret|].
  apply appends_bind; [apply appends_getProjectOrg|]. intros [org [e|]];
    [apply appends_ret|].
  appends_all.
Qed.

Lemma appends_getMRURL (client : Client) (projID branch : string) :
  appends (getMRURL W client projID branch).
Proof. unfold getMRURL. appends_all. Qed.

Lemma appends_load (url : string) : appends (load W url).
Proof. unfold load, commandExists. appends_all. Qed.

Lemma starts_with_bind {A B : Type} (e : event) (m : M A) (k : A -> M B) :
  starts_with e m -> (forall a, appends (k a)) -> starts_with e (bind m k).
Proof.
  intros Hm Hk h. destruct (Hm h) as (o & tr & Hrun). unfold bind. rewrite Hrun.
  destruct o as [a | p | code].
  - destruct (Hk a (h ++ e :: tr)) as [tr' Htr'].
    destruct (k a (h ++ e :: tr)) as [o' h'] eqn:E. cbn [snd] in Htr'. subst h'.
    exists o', (tr ++ tr'). now rewrite <- app_assoc.
  - now exists (Panic p), tr.
  - now exists (Exit code), tr.
Qed.

Lemma starts_with_first {A B : Type} (e : event) (m : M A) (k : A -> M B) (a : A) :
  (forall h, m h = (Ret a, h ++ [e])) -> appends (k a) -> starts_with e (bind m k).
Proof.
  intros Hm Hk h. unfold bind. rewrite Hm.
  destruct (Hk (h ++ [e])) as [tr Htr].
  destruct (k a (h ++ [e])) as [o h'] eqn:E. cbn [snd] in Htr. subst h'.
  exists o, tr. now rewrite <- app_assoc.
Qed.

Lemma starts_getBranch :
  starts_with (EvLog "getting current working branch") (getBranch W).
Proof.
  unfold getBranch. apply (starts_with_first _ _ _ tt); [reflexivity|].
  appends_all.
Qed.

Lemma starts_getProjectHomeURL :
  starts_with (EvRun (exec_Command "git" ["remote"; "-v"])) (getProjectHomeURL W).
Proof.
  unfold getProjectHomeURL, getProjectRemote.
  apply starts_with_bind; [|intros ?; appends_all].
  intros h. unfold bind, cmd_Run.
  destruct (Run_err _); [now exists (Ret ("", Some e)), []|].
  cbn [lift]. now eexists _, [].
Qed.

End Appends.

(** ** The command line (C8) *)

Lemma main_arg (W : World) (prog arg : string) (rest : list string) (h : list event) :
  main W (prog :: arg :: rest) h
  = (if String.eqb arg "mr" then
       client <- getGitlabClient W ;;
       branch <- stringmust (getBranch W) ;;
       projID <- stringmust (getProjectID W client) ;;
       mrURL <- stringmust (getMRURL W client projID branch) ;;
       err <- load W mrURL ;;
       must err
     else if String.eqb arg "home" || String.eqb arg "homepage" then
       homeURL <- stringmust (getProjectHomeURL W) ;;
       err <- load W homeURL ;;
       must err
     else
       log_Fatalf ("invalid argument `" ++ arg ++ "`" ++ LF)) h.
Proof. reflexivity. Qed.

Lemma starts_stringmust (e : event) (call : M (string * option error)) :
  starts_with e call -> starts_with e (stringmust call).
Proof.
  intros H. unfold stringmust. apply starts_with_bind; [exact H|].
  intros [str err]. apply appends_bind; [apply appends_must|].
  intros _. apply appends_ret.
Qed.

Lemma appends_open (W : World) (url : string) :
  appends (err <- load W url ;; must err).
Proof. apply appends_bind; [apply appends_load | intros err; apply appends_must]. Qed.

Lemma starts_home (W : World) :
  starts_with (EvRun (exec_Command "git" ["remote"; "-v"]))
              (homeURL <- stringmust (getProjectHomeURL W) ;;
               err <- load W homeURL ;; must err).
Proof.
  apply starts_with_bind.
  - apply starts_stringmust, starts_getProjectHomeURL.
  - intros homeURL. apply appends_open.
Qed.

Lemma starts_mr (W : World) (client : Client) :
  starts_with (EvLog "getting current working branch")
              (branch <- stringmust (getBranch W) ;;
               projID <- stringmust (getProjectID W client) ;;
               mrURL <- stringmust (getMRURL W client projID branch) ;;
               err <- load W mrURL ;; must err).
Proof.
  apply starts_with_bind.
  - apply starts_stringmust, starts_getBranch.
  - intros branch.
    apply appends_bind; [apply appends_stringmust, appends_getProjectID|].
    intros projID.
    apply appends_bind; [apply appends_stringmust, appends_getMRURL|].
    intros mrURL. apply appends_open.
Qed.

(** C8. Without an argument [main] runs as with ["home"]; ["homepage"] runs
    as ["home"]; with ["home"] the run starts by listing the remotes and
    with ["mr"] by resolving the branch; with any other first argument the
    run is one log line "invalid argument" and exit status 1, with no
    network call among its events. *)
Theorem main_dispatch (W : World) (prog : string) (rest : list string)
        (h : list event) :
  main W [prog] h = main W [prog; "home"] h
  /\ main W (prog :: "homepage" :: rest) h = main W (prog :: "home" :: rest) h
  /\ (exists o tr,
         main W (prog :: "home" :: rest) h
         = (o, h ++ EvRun (exec_Command "git" ["remote"; "-v"]) :: tr))
  /\ (exists o tr,
         main W (prog :: "mr" :: rest) h
         = (o, h ++ EvLog "getting current working branch" :: tr))
  /\ (forall arg : string,
         arg <> "mr" -> arg <> "home" -> arg <> "homepage" ->
         main W (prog :: arg :: rest) h
         = (Exit 1, h ++ [EvLog ("invalid argument `" ++ arg ++ "`" ++ LF)])
         /\ forall tr, snd (main W (prog :: arg :: rest) h) = h ++ tr ->
                       existsb is_network tr = false).
Proof.
  split; [reflexivity|]. split; [reflexivity|]. split; [|split].
  - rewrite main_arg. cbn [String.eqb Ascii.eqb Bool.eqb andb orb].
    apply starts_home.
  - rewrite main_arg. cbn [String.eqb Ascii.eqb Bool.eqb andb orb].
    unfold bind at 1.
    assert (Hc : exists client, getGitlabClient W h = (Ret client, h)).
    { unfold getGitlabClient. destruct (negb _); eexists; reflexivity. }
    destruct Hc as [client ->]. apply starts_mr.
  - intros arg Hmr Hhome Hpage.
    assert (E : main W (prog :: arg :: rest) h
                = (Exit 1, h ++ [EvLog ("invalid argument `" ++ arg ++ "`" ++ LF)])).
    { rewrite main_arg.
      apply String.eqb_neq in Hmr, Hhome, Hpage. now rewrite Hmr, Hhome, Hpage. }
    split; [exact E|].
    intros tr Htr. rewrite E in Htr. cbn [snd] in Htr.
    apply app_inv_head in Htr. now subst tr.
Qed.

Lemma main_dispatch_witness :
  main (sample_world [] []) ["git-open"; "foo"] []
  = (Exit 1, [EvLog ("invalid argument `foo`" ++ LF)]).
Proof.
  refine (proj1 (proj2 (proj2 (proj2 (proj2
            (main_dispatch (sample_world [] []) "git-open" [] []))))
            "foo" _ _ _)); discriminate.
Defined.

(** ** The launcher (C9) *)

(** What [load] does, in terms of its probe: it runs [command -v xdg-open]
    with [commandExists], runs ["xdg-open" url] when that process succeeds
    and ["open" url] otherwise, and returns the error of that run: an error
    exactly when the opener could not be started or exited with a status
    other than zero. *)
Lemma load_selects_opener (W : World) (url : string) (h : list event) :
  let h1 := h ++ [EvLog ("loading " ++ url)] in
  let probe := exec_Command "command" ["-v"; "xdg-open"] in
  let h2 := h1 ++ [EvRun probe] in
  exists (found : bool) (opened : process),
    commandExists W "xdg-open" h1 = (Ret found, h2)
    /\ found = match Run_err (run_process W h1 probe) with
               | None => true
               | Some _ => false
               end
    /\ let opener := if found then "xdg-open" else "open" in
       opened = run_process W h2 (exec_Command opener [url])
       /\ load W url h
          = (Ret (Run_err opened), h2 ++ [EvRun (exec_Command opener [url])])
       /\ match Run_err opened with
          | None => match opened with
                    | Exited code _ => code = 0%Z
                    | NotStarted _ => False
                    end
          | Some _ => match opened with
                      | Exited code _ => code <> 0%Z
                      | NotStarted _ => True
                      end
          end.
Proof.
  intros h1 probe h2.
  assert (Hrun : forall p : process,
             match Run_err p with
             | None => match p with Exited code _ => code = 0%Z | NotStarted _ => False end
             | Some _ => match p with Exited code _ => code <> 0%Z | NotStarted _ => True end
             end).
  { intros [text | code out]; cbn [Run_err]; [exact I|].
    destruct (Z.eqb_spec code 0); assumption. }
  unfold load, commandExists, bind, log_Print, cmd_Run. fold h1. fold probe.
  destruct (Run_err (run_process W h1 probe)) as [e|]; cbn [ret]; fold h2.
  - exists false, (run_process W h2 (exec_Command "open" [url])).
    repeat split; try reflexivity. apply Hrun.
  - exists true, (run_process W h2 (exec_Command "xdg-open" [url])).
    repeat split; try reflexivity. apply Hrun.
Qed.

Lemma linux_world_resolves : resolves_on linux_path linux_world.
Proof.
  intros h cmd name arg Hargs Hpath. cbn [run_process linux_world].
  rewrite Hargs, Hpath. eexists. reflexivity.
Qed.

(** C9, where the code departs from it. [commandExists] does not look for
    ["xdg-open"] on the search path: it runs the command [command], and
    where [command] is not an executable on the path (it is a builtin of
    the shell) that run cannot be started.  Then, with ["xdg-open"] on the
    path, [commandExists "xdg-open"] is false and [load] runs ["open" url],
    not ["xdg-open" url]; where there is no [open] either, [load] returns
    an error although the Linux opener is there. *)
Theorem load_misses_xdg_open_on_path
        (path : list string) (W : World) (url : string) (h : list event) :
  resolves_on path W ->
  existsb (String.eqb "xdg-open") path = true ->
  existsb (String.eqb "command") path = false ->
  let h1 := h ++ [EvLog ("loading " ++ url)] in
  let h2 := h1 ++ [EvRun (exec_Command "command" ["-v"; "xdg-open"])] in
  commandExists W "xdg-open" h1 = (Ret false, h2)
  /\ load W url h
     = (Ret (Run_err (run_process W h2 (exec_Command "open" [url]))),
        h2 ++ [EvRun (exec_Command "open" [url])])
  /\ (existsb (String.eqb "open") path = false ->
      exists text, fst (load W url h) = Ret (Some (exec_Error text))).
Proof.
  intros Hres _ Hcommand h1 h2.
  destruct (Hres h1 (exec_Command "command" ["-v"; "xdg-open"]) "command"%string
                 ["-v"; "xdg-open"]%string eq_refl Hcommand) as [text Hprobe].
  assert (Hexists : commandExists W "xdg-open" h1 = (Ret false, h2)).
  { unfold commandExists, bind, cmd_Run. now rewrite Hprobe. }
  assert (Hload : load W url h
                  = (Ret (Run_err (run_process W h2 (exec_Command "open" [url]))),
                     h2 ++ [EvRun (exec_Command "open" [url])])).
  { unfold load. unfold bind at 1. unfold log_Print at 1. fold h1.
    rewrite (bind_Ret _ _ _ _ _ Hexists). reflexivity. }
  repeat split; [exact Hexists | exact Hload |].
  intros Hopen. rewrite Hload. cbn [fst].
  destruct (Hres h2 (exec_Command "open" [url]) "open"%string [url] eq_refl Hopen)
    as [text' ->].
  now exists text'.
Qed.

Lemma load_misses_xdg_open_on_path_witness :
  existsb (String.eqb "xdg-open") linux_path = true
  /\ commandExists linux_world "xdg-open"
                   [EvLog "loading https://gitlab.mx.com/mx/atlas"]
     = (Ret false,
        [EvLog "loading https://gitlab.mx.com/mx/atlas";
         EvRun (exec_Command "command" ["-v"; "xdg-open"])])
  /\ load linux_world "https://gitlab.mx.com/mx/atlas" []
     = (Ret (Some (exec_Error "exec: open: executable file not found in $PATH")),
        [EvLog "loading https://gitlab.mx.com/mx/atlas";
         EvRun (exec_Command "command" ["-v"; "xdg-open"]);
         EvRun (exec_Command "open" ["https://gitlab.mx.com/mx/atlas"])]).
Proof.
  split; [reflexivity|].
  destruct (load_misses_xdg_open_on_path
              linux_path linux_world "https://gitlab.mx.com/mx/atlas" []
              linux_world_resolves eq_refl eq_refl) as (Hexists & Hload & _).
  split; [exact Hexists | exact Hload].
Defined.

(** * Further properties of the program *)

(** ** Running the pieces *)

Lemma bind_Panic {A B : Type} (m : M A) (k : A -> M B) (h h' : list event) (p : panic) :
  m h = (Panic p, h') -> bind m k h = (Panic p, h').
Proof. intros H. unfold bind. now rewrite H. Qed.

Lemma bind_Exit {A B : Type} (m : M A) (k : A -> M B) (h h' : list event) (code : Z) :
  m h = (Exit code, h') -> bind m k h = (Exit code, h').
Proof. intros H. unfold bind. now rewrite H. Qed.

Lemma stringmust_ok (call : M (string * option error)) (h h' : list event) (str : string) :
  call h = (Ret (str, None), h') -> stringmust call h = (Ret str, h').
Proof. intros H. unfold stringmust. now rewrite (bind_Ret _ _ _ _ _ H). Qed.

Lemma stringmust_err (call : M (string * option error)) (h h' : list event)
      (str : string) (e : error) :
  call h = (Ret (str, Some e), h') ->
  stringmust call h = (@Exit string 1, h' ++ [fatal_line e]).
Proof. intros H. unfold stringmust. now rewrite (bind_Ret _ _ _ _ _ H). Qed.

Lemma getBranch_run (W : World) (h : list event) :
  let h1 := h ++ [EvLog "getting current working branch"] in
  let p := run_process W h1 (exec_Command "git" ["branch"]) in
  getBranch W h
  = (Ret match Run_err p with
         | Some e => ("", Some e)
         | None => current_branch (Run_out p)
         end,
     h1 ++ [EvRun (exec_Command "git" ["branch"])]).
Proof.
  intros h1 p. unfold getBranch, bind, log_Print, cmd_Run. fold h1. fold p.
  destruct (Run_err p); [reflexivity|].
  unfold ret, current_branch. now rewrite getBranch_lines_find.
Qed.

Lemma getProjectRemote_run (W : World) (h : list event) :
  let p := run_process W h (exec_Command "git" ["remote"; "-v"]) in
  getProjectRemote W h
  = (Ret match Run_err p with
         | Some e => ("", Some e)
         | None => push_remote (Run_out p)
         end,
     h ++ [EvRun (exec_Command "git" ["remote"; "-v"])]).
Proof.
  intros p. unfold getProjectRemote, bind, cmd_Run. fold p.
  destruct (Run_err p); [reflexivity|].
  unfold lift, push_remote. now rewrite getProjectRemote_lines_find.
Qed.

(** ** Fields are never empty *)

Lemma DecodeRuneInString_size (c : ascii) (s : string) :
  1 <= snd (utf8.DecodeRuneInString (String c s)).
Proof.
  unfold utf8.DecodeRuneInString.
  destruct (N.ltb _ _); [cbn; lia|].
  destruct (utf8.first _) as [[[sz lo] hi]|]; [|cbn; lia].
  repeat match goal with
         | |- context [if ?b then _ else _] => destruct b
         end; cbn [snd]; lia.
Qed.

Lemma slice_to_nonempty (c : ascii) (s : string) (n : nat) :
  1 <= n -> slice_to (String c s) n <> EmptyString.
Proof. destruct n; [lia | discriminate]. Qed.

Lemma append_nonempty (a b : string) : b <> EmptyString -> (a ++ b)%string <> EmptyString.
Proof. destruct a; [trivial | discriminate]. Qed.

Lemma FieldsFunc_loop_nonempty (f : N -> bool) (fuel : nat) :
  forall (s : string) (cur : option string),
    match cur with Some w => w <> EmptyString | None => True end ->
    Forall (fun field => field <> EmptyString) (FieldsFunc_loop fuel s f cur).
Proof.
  assert (Hflush : forall cur : option string,
             match cur with Some w => w <> EmptyString | None => True end ->
             Forall (fun field => field <> EmptyString) (flush cur)).
  { intros [w|] H; cbn [flush]; [constructor; [exact H | constructor] | constructor]. }
  induction fuel as [|fuel IH]; intros s cur Hcur.
  - destruct s; cbn [FieldsFunc_loop]; now apply Hflush.
  - destruct s as [|c s]; [cbn [FieldsFunc_loop]; now apply Hflush|].
    cbn [FieldsFunc_loop].
    pose proof (DecodeRuneInString_size c s) as Hsize.
    destruct (utf8.DecodeRuneInString (String c s)) as [r size]. cbn [snd] in Hsize.
    destruct (f r).
    + apply Forall_app. split; [now apply Hflush | now apply IH].
    + apply IH. apply append_nonempty. now apply slice_to_nonempty.
Qed.

Lemma Fields_nonempty (s : string) :
  Forall (fun field => field <> EmptyString) (Fields s).
Proof. apply FieldsFunc_loop_nonempty. exact I. Qed.

Lemma push_remote_nonempty (out : string) :
  match push_remote out with
  | (url, None) => url <> EmptyString
  | (url, Some _) => url = EmptyString
  end.
Proof.
  unfold push_remote. destruct (find is_push_line (Split out LF)) as [line|] eqn:E;
    [|reflexivity].
  apply find_some in E as [_ E]. unfold is_push_line in E.
  apply andb_true_iff in E as [E _]. apply andb_true_iff in E as [_ E].
  apply Nat.leb_le in E.
  pose proof (Fields_nonempty line) as H. rewrite Forall_forall in H.
  apply H, nth_In. lia.
Qed.

(** X1. [getProjectRemote] never panics and never exits: whatever
    [git remote -v] does or prints, it returns after that one command, with
    an empty URL and an error, or with a URL that is not empty and no
    error. *)
Theorem getProjectRemote_returns (W : World) (h : list event) :
  exists (url : string) (err : option error),
    getProjectRemote W h
    = (Ret (url, err), h ++ [EvRun (exec_Command "git" ["remote"; "-v"])])
    /\ match err with
       | None => url <> EmptyString
       | Some _ => url = EmptyString
       end.
Proof.
  rewrite getProjectRemote_run.
  destruct (Run_err _) as [e|].
  - exists ""%string, (Some e). split; reflexivity.
  - pose proof (push_remote_nonempty
                  (Run_out (run_process W h (exec_Command "git" ["remote"; "-v"])))) as H.
    destruct (push_remote _) as [url err]. exists url, err. split; [reflexivity | exact H].
Qed.

(** ** The three getters and the scan of the earlier variant *)

Lemma bind_lift_ret {A B : Type} (o : outcome A) (g : A -> B) (h : list event) :
  bind (lift o) (fun a => ret (g a)) h = (obind o (fun a => Ret (g a)), h).
Proof. unfold bind, lift, ret. destruct o; reflexivity. Qed.

(** What a getter makes of the answer of [getProjectRemote]. *)
Lemma getter_run (W : World) (parse : string -> outcome string) (h : list event) :
  let p := run_process W h (exec_Command "git" ["remote"; "-v"]) in
  bind (getProjectRemote W)
       (fun r => match r with
                 | (url, Some e) => ret ("", Some e)
                 | (url, None) => bind (lift (parse url)) (fun x => ret (x, None))
                 end) h
  = (match Run_err p with
     | Some e => Ret (""%string, Some e)
     | None =>
       match push_remote (Run_out p) with
       | (url, Some e) => Ret (""%string, Some e)
       | (url, None) => obind (parse url) (fun x => Ret (x, @None error))
       end
     end,
     h ++ [EvRun (exec_Command "git" ["remote"; "-v"])]).
Proof.
  intros p. rewrite (bind_Ret _ _ _ _ _ (getProjectRemote_run W h)). fold p.
  destruct (Run_err p); [reflexivity|].
  destruct (push_remote (Run_out p)) as [url [e|]]; [reflexivity|].
  apply (bind_lift_ret (parse url) (fun x => (x, None))).
Qed.

Lemma getProjectName_run (W : World) (h : list event) :
  let p := run_process W h (exec_Command "git" ["remote"; "-v"]) in
  getProjectName W h
  = (match Run_err p with
     | Some e => Ret (""%string, Some e)
     | None =>
       match push_remote (Run_out p) with
       | (url, Some e) => Ret (""%string, Some e)
       | (url, None) => obind (parseRepoURLProjectName url) (fun x => Ret (x, @None error))
       end
     end,
     h ++ [EvRun (exec_Command "git" ["remote"; "-v"])]).
Proof. exact (getter_run W parseRepoURLProjectName h). Qed.

Lemma getProjectOrg_run (W : World) (h : list event) :
  let p := run_process W h (exec_Command "git" ["remote"; "-v"]) in
  getProjectOrg W h
  = (match Run_err p with
     | Some e => Ret (""%string, Some e)
     | None =>
       match push_remote (Run_out p) with
       | (url, Some e) => Ret (""%string, Some e)
       | (url, None) => obind (parseRepoURLProjectOrg url) (fun x => Ret (x, @None error))
       end
     end,
     h ++ [EvRun (exec_Command "git" ["remote"; "-v"])]).
Proof. exact (getter_run W parseRepoURLProjectOrg h). Qed.

Lemma getProjectHomeURL_run (W : World) (h : list event) :
  let p := run_process W h (exec_Command "git" ["remote"; "-v"]) in
  getProjectHomeURL W h
  = (match Run_err p with
     | Some e => Ret (""%string, Some e)
     | None =>
       match push_remote (Run_out p) with
       | (url, Some e) => Ret (""%string, Some e)
       | (url, None) => obind (parseRepoURLProjectURL url) (fun x => Ret (x, @None error))
       end
     end,
     h ++ [EvRun (exec_Command "git" ["remote"; "-v"])]).
Proof. exact (getter_run W parseRepoURLProjectURL h). Qed.

Lemma Earlier_getProjectName_lines_find (lines : list string) (url : string) :
  Earlier.getProjectName_lines lines url
  = Ret match find is_push_line lines with
        | Some line => nth 1 (Fields line) ""%string
        | None => url
        end.
Proof.
  induction lines as [|line rest IH]; cbn [Earlier.getProjectName_lines find];
    [reflexivity|].
  unfold is_push_line at 1.
  destruct (String.eqb line ""); cbn [negb andb]; [exact IH|].
  destruct (Nat.ltb_spec (List.length (Fields line)) 3) as [Hlt | Hge].
  - replace (Nat.leb 3 (List.length (Fields line))) with false
      by (symmetry; apply Nat.leb_gt; exact Hlt).
    exact IH.
  - replace (Nat.leb 3 (List.length (Fields line))) with true
      by (symmetry; apply Nat.leb_le; exact Hge).
    rewrite (index_nth _ 2 ""%string) by lia. cbn [obind andb].
    destruct (String.eqb (nth 2 (Fields line) "") "(push)"); [|exact IH].
    apply index_nth. lia.
Qed.

Lemma Earlier_getProjectName_run (W : World) (h : list event) :
  let cmd := {| Args := ["git"; "remote"; "-v"]; Dir := Earlier.workdir |} in
  let p := run_process W h cmd in
  Earlier.getProjectName W h
  = (match Run_err p with
     | Some e => Ret (""%string, Some e)
     | None =>
       match push_remote (Run_out p) with
       | (url, Some e) => Ret (""%string, Some e)
       | (url, None) => obind (parseRepoURLProjectName url) (fun x => Ret (x, @None error))
       end
     end,
     h ++ [EvRun cmd]).
Proof.
  intros cmd p. unfold Earlier.getProjectName, bind at 1, cmd_Run. fold cmd. fold p.
  destruct (Run_err p); [reflexivity|].
  pose proof (push_remote_nonempty (Run_out p)) as Hne.
  unfold push_remote in *. unfold bind at 1, lift.
  rewrite Earlier_getProjectName_lines_find.
  destruct (find is_push_line (Split (Run_out p) LF)) as [line|].
  - apply String.eqb_neq in Hne. rewrite Hne.
    apply (bind_lift_ret _ (fun x => (x, None))).
  - reflexivity.
Qed.

(** X2. The two ways of scanning the remotes agree: when git gives the same
    answer in the fixed directory of the earlier variant as in the current
    one, [getProjectName] of the earlier variant (a [break] and a test for
    the empty URL) returns what [getProjectName] of [main.go] returns, value,
    error or panic. *)
Theorem Earlier_getProjectName_agrees (W : World) (h : list event) :
  run_process W h {| Args := ["git"; "remote"; "-v"]; Dir := Earlier.workdir |}
  = run_process W h (exec_Command "git" ["remote"; "-v"]) ->
  fst (Earlier.getProjectName W h) = fst (getProjectName W h).
Proof.
  intros H. rewrite Earlier_getProjectName_run, getProjectName_run.
  cbn [fst]. now rewrite H.
Qed.

Lemma Earlier_getProjectName_agrees_witness :
  fst (Earlier.getProjectName (sample_world [] []) [])
  = fst (getProjectName (sample_world [] []) []).
Proof.
  exact (Earlier_getProjectName_agrees (sample_world [] []) [] eq_refl).
Defined.

(** ** The parsers, in closed form *)

Lemma parseRepoURLProjectOrg_eq (rawurl : string) :
  parseRepoURLProjectOrg rawurl
  = if contains ":" rawurl
    then Ret (before_first "/" (after_first ":" rawurl))
    else Panic (index_out_of_range 1 1).
Proof.
  unfold parseRepoURLProjectOrg. rewrite SplitN_2_byte.
  destruct (contains ":" rawurl); [|reflexivity].
  rewrite index_1. cbn [obind]. rewrite SplitN_2_byte.
  destruct (contains "/" (after_first ":" rawurl)) eqn:E; [reflexivity|].
  rewrite index_0. now rewrite before_first_absent.
Qed.

Lemma parseRepoURLProjectName_eq (rawurl : string) :
  parseRepoURLProjectName rawurl
  = if contains ":" rawurl && contains "/" (after_first ":" rawurl)
    then Ret (TrimSuffix (after_first "/" (after_first ":" rawurl)) ".git")
    else Panic (index_out_of_range 1 1).
Proof.
  unfold parseRepoURLProjectName. rewrite SplitN_2_byte.
  destruct (contains ":" rawurl); [|reflexivity].
  rewrite index_1. cbn [obind andb]. rewrite SplitN_2_byte.
  destruct (contains "/" (after_first ":" rawurl)); reflexivity.
Qed.

Lemma parseRepoURLProjectURL_eq (rawurl : string) :
  parseRepoURLProjectURL rawurl
  = if contains "@" rawurl
    then Ret ("https://"
              ++ TrimSuffix (Replace (after_first "@" rawurl) ":" "/" 1) ".git")%string
    else Panic (index_out_of_range 1 1).
Proof.
  unfold parseRepoURLProjectURL. rewrite SplitN_2_byte.
  destruct (contains "@" rawurl); reflexivity.
Qed.

(** The parts of a remote that the org and the name come from. *)
Lemma parsed_parts (rawurl org name : string) :
  parseRepoURLProjectOrg rawurl = Ret org ->
  parseRepoURLProjectName rawurl = Ret name ->
  exists a rest : string,
    rawurl = (a ++ ":" ++ org ++ "/" ++ rest)%string
    /\ contains ":" a = false /\ contains "/" org = false
    /\ name = TrimSuffix rest ".git".
Proof.
  rewrite parseRepoURLProjectOrg_eq, parseRepoURLProjectName_eq.
  destruct (contains ":" rawurl) eqn:Ec; [|discriminate].
  destruct (contains "/" (after_first ":" rawurl)) eqn:Es; cbn [andb]; [|discriminate].
  intros Ho Hn. injection Ho as <-. injection Hn as <-.
  exists (before_first ":" rawurl), (after_first "/" (after_first ":" rawurl)).
  repeat split; try apply contains_before_first.
  rewrite (cut_at_first ":" rawurl Ec) at 1.
  rewrite (cut_at_first "/" (after_first ":" rawurl) Es) at 1.
  reflexivity.
Qed.

(** X3. What the org and the name are taken from: when both parsers return,
    the remote is [a:org/rest] with no [":"] in [a] and no ["/"] in [org],
    and the name is [rest] without one trailing [".git"]. *)
Theorem parsed_remote_shape (rawurl org name : string) :
  parseRepoURLProjectOrg rawurl = Ret org ->
  parseRepoURLProjectName rawurl = Ret name ->
  exists a rest : string,
    rawurl = (a ++ ":" ++ org ++ "/" ++ rest)%string
    /\ contains ":" a = false /\ contains "/" org = false
    /\ name = TrimSuffix rest ".git".
Proof. exact (parsed_parts rawurl org name). Qed.

Lemma parsed_remote_shape_witness :
  exists a rest : string,
    "git@gitlab.mx.com:mx/tools/atlas.git"%string = (a ++ ":" ++ "mx" ++ "/" ++ rest)%string
    /\ contains ":" a = false /\ contains "/" "mx" = false
    /\ "tools/atlas"%string = TrimSuffix rest ".git".
Proof.
  exact (parsed_remote_shape "git@gitlab.mx.com:mx/tools/atlas.git" "mx" "tools/atlas"
                             eq_refl eq_refl).
Defined.

(** A remote that ends with [".git"] ends with [org/name.git] for its own
    org and name. *)
Lemma own_repo_suffix (rawurl org name : string) :
  parseRepoURLProjectOrg rawurl = Ret org ->
  parseRepoURLProjectName rawurl = Ret name ->
  HasSuffix rawurl ".git" = true ->
  HasSuffix rawurl (repo_suffix org name) = true.
Proof.
  intros Ho Hn Hgit.
  destruct (parsed_parts _ _ _ Ho Hn) as (a & rest & -> & _ & _ & ->).
  change (a ++ ":" ++ org ++ "/" ++ rest)%string
    with (a ++ String ":" (org ++ String "/" rest))%string in *.
  rewrite (HasSuffix_past_sep ":") in Hgit by reflexivity.
  rewrite (HasSuffix_past_sep "/") in Hgit by reflexivity.
  apply HasSuffix_iff in Hgit as [stem ->]. rewrite TrimSuffix_app.
  unfold repo_suffix.
  replace (a ++ String ":" (org ++ String "/" (stem ++ ".git")))%string
    with ((a ++ ":") ++ org ++ "/" ++ stem ++ ".git")%string
    by (rewrite app_assoc_s; reflexivity).
  apply HasSuffix_app.
Qed.

(** X4. The project of the remote is found: when the remote ends with
    [".git"] and the search result contains a project with that remote as
    its [SSHURLToRepo], the scan of [getProjectID] returns the ID of a
    project of the list whose URL ends with [org/name.git], and no error. *)
Theorem getProjectID_finds_own_project
        (rawurl org name : string) (projs : list Project) (proj : Project) :
  parseRepoURLProjectOrg rawurl = Ret org ->
  parseRepoURLProjectName rawurl = Ret name ->
  HasSuffix rawurl ".git" = true ->
  In proj projs -> SSHURLToRepo proj = rawurl ->
  exists found : Project,
    getProjectID_projs projs org name = (strconv.Itoa (ID found), None)
    /\ In found projs
    /\ HasSuffix (SSHURLToRepo found) (org ++ "/" ++ name ++ ".git") = true.
Proof.
  intros Ho Hn Hgit Hin Hurl. rewrite getProjectID_projs_find.
  destruct (find (has_repo_suffix org name) projs) as [found|] eqn:E.
  - apply find_some in E as [Hfound Hsuf]. now exists found.
  - pose proof (find_none _ _ E proj Hin) as Hno.
    unfold has_repo_suffix in Hno.
    rewrite Hurl, (own_repo_suffix _ _ _ Ho Hn Hgit) in Hno. discriminate.
Qed.

Lemma getProjectID_finds_own_project_witness :
  exists found : Project,
    getProjectID_projs [atlas_fork; atlas] "mx" "atlas" = (strconv.Itoa (ID found), None)
    /\ In found [atlas_fork; atlas]
    /\ HasSuffix (SSHURLToRepo found) ("mx" ++ "/" ++ "atlas" ++ ".git") = true.
Proof.
  refine (getProjectID_finds_own_project
            "git@gitlab.mx.com:mx/atlas.git" "mx" "atlas" [atlas_fork; atlas] atlas
            eq_refl eq_refl eq_refl _ eq_refl).
  right. left. reflexivity.
Defined.

(** X5. An HTTPS remote is not what the parsers expect: for
    [https://rest] with no [":"] and no ["@"] in [rest], the org is empty,
    the name is ["/" ++ rest] without a trailing [".git"], and the home URL
    parser panics on [userAndRest[1]]. *)
Theorem parse_https_remote (rest : string) :
  contains ":" rest = false -> contains "@" rest = false ->
  parseRepoURLProjectOrg ("https://" ++ rest) = Ret ""%string
  /\ parseRepoURLProjectName ("https://" ++ rest)
     = Ret (TrimSuffix ("/" ++ rest) ".git")
  /\ parseRepoURLProjectURL ("https://" ++ rest) = Panic (index_out_of_range 1 1).
Proof.
  intros Hc Ha.
  rewrite parseRepoURLProjectOrg_eq, parseRepoURLProjectName_eq, parseRepoURLProjectURL_eq.
  cbn [append contains after_first before_first Ascii.eqb Bool.eqb orb andb].
  rewrite Ha. repeat split.
Qed.

Lemma parse_https_remote_witness :
  parseRepoURLProjectOrg "https://github.com/minond/git-open.git" = Ret ""%string
  /\ parseRepoURLProjectName "https://github.com/minond/git-open.git"
     = Ret "/github.com/minond/git-open"%string
  /\ parseRepoURLProjectURL "https://github.com/minond/git-open.git"
     = Panic (index_out_of_range 1 1).
Proof.
  exact (parse_https_remote "github.com/minond/git-open.git" eq_refl eq_refl).
Defined.

(** ** From the remotes to the getters *)

Lemma parse_ssh_parts (user host org name : string) :
  contains "@" user = false -> contains ":" user = false ->
  contains ":" host = false -> contains "/" org = false ->
  let rawurl := (user ++ "@" ++ host ++ ":" ++ org ++ "/" ++ name ++ ".git")%string in
  parseRepoURLProjectOrg rawurl = Ret org
  /\ parseRepoURLProjectName rawurl = Ret name
  /\ parseRepoURLProjectURL rawurl
     = Ret ("https://" ++ host ++ "/" ++ org ++ "/" ++ name)%string.
Proof.
  intros Hu1 Hu2 Hh Ho rawurl.
  assert (Ha : contains ":" (user ++ "@" ++ host) = false).
  { rewrite contains_app, Hu2. cbn [orb]. cbn [append contains]. now rewrite Hh. }
  assert (E : rawurl
              = ((user ++ "@" ++ host) ++ ":" ++ org ++ "/" ++ name ++ ".git")%string).
  { unfold rawurl. rewrite app_assoc_s. reflexivity. }
  repeat split.
  - rewrite E. now apply parseRepoURLProjectOrg_cut.
  - rewrite E, parseRepoURLProjectName_cut by assumption.
    now rewrite TrimSuffix_app.
  - unfold rawurl. rewrite parseRepoURLProjectURL_cut by assumption.
    do 2 f_equal.
    replace (host ++ "/" ++ org ++ "/" ++ name ++ ".git")%string
      with ((host ++ "/" ++ org ++ "/" ++ name) ++ ".git")%string.
    + apply TrimSuffix_app.
    + rewrite !app_assoc_s. reflexivity.
Qed.

(** X6. From the output of git to the identity of the project: when
    [git remote -v] prints [out] and the push remote of [out] is
    [user@host:org/name.git], the three getters return [name], [org] and
    [https://host/org/name], each after one run of [git remote -v]. *)
Theorem getters_of_ssh_push_remote
        (W : World) (h : list event) (out user host org name : string) :
  run_process W h (exec_Command "git" ["remote"; "-v"]) = Exited 0 out ->
  push_remote out
  = ((user ++ "@" ++ host ++ ":" ++ org ++ "/" ++ name ++ ".git")%string, None) ->
  contains "@" user = false -> contains ":" user = false ->
  contains ":" host = false -> contains "/" org = false ->
  let h' := h ++ [EvRun (exec_Command "git" ["remote"; "-v"])] in
  getProjectName W h = (Ret (name, None), h')
  /\ getProjectOrg W h = (Ret (org, None), h')
  /\ getProjectHomeURL W h
     = (Ret (("https://" ++ host ++ "/" ++ org ++ "/" ++ name)%string, None), h').
Proof.
  intros Hrun Hpush Hu1 Hu2 Hh Ho h'.
  destruct (parse_ssh_parts user host org name Hu1 Hu2 Hh Ho) as (Eo & En & Eu).
  rewrite getProjectName_run, getProjectOrg_run, getProjectHomeURL_run.
  rewrite Hrun. cbn [Run_err Run_out Z.eqb]. rewrite Hpush, Eo, En, Eu.
  repeat split.
Qed.

Lemma getters_of_ssh_push_remote_witness :
  let W := sample_world [] [] in
  let h' := [EvRun (exec_Command "git" ["remote"; "-v"])] in
  getProjectName W [] = (Ret ("atlas"%string, None), h')
  /\ getProjectOrg W [] = (Ret ("mx"%string, None), h')
  /\ getProjectHomeURL W [] = (Ret ("https://gitlab.mx.com/mx/atlas"%string, None), h').
Proof.
  generalize (getters_of_ssh_push_remote (sample_world [] []) [] sample_remotes
                "git" "gitlab.mx.com" "mx" "atlas").
  vm_compute. intros H. apply H; reflexivity.
Defined.

(** X7. An unresolved remote stops the getters: when [getProjectRemote]
    returns an error (git failed, or no push remote), each getter returns
    that error with an empty string and parses nothing. *)
Theorem getters_return_remote_error
        (W : World) (h : list event) (url : string) (e : error) :
  fst (getProjectRemote W h) = Ret (url, Some e) ->
  let h' := h ++ [EvRun (exec_Command "git" ["remote"; "-v"])] in
  getProjectName W h = (Ret (""%string, Some e), h')
  /\ getProjectOrg W h = (Ret (""%string, Some e), h')
  /\ getProjectHomeURL W h = (Ret (""%string, Some e), h').
Proof.
  intros H h'. rewrite getProjectRemote_run in H. cbn [fst] in H.
  rewrite getProjectName_run, getProjectOrg_run, getProjectHomeURL_run.
  destruct (Run_err _) as [e'|].
  - injection H as _ ->. repeat split.
  - destruct (push_remote _) as [url' [e'|]]; [|discriminate].
    injection H as _ ->. repeat split.
Qed.

Lemma getters_return_remote_error_witness :
  let W := {| os_Getenv := fun _ => ""%string;
              run_process := fun _ _ => Exited 0 ("origin" ++ TAB ++ "url (fetch)" ++ LF);
              list_projects := fun _ _ _ => ([], None);
              list_merge_requests := fun _ _ _ _ => ([], None) |} in
  let e := errors_New "unable to find remote push url" in
  let h' := [EvRun (exec_Command "git" ["remote"; "-v"])] in
  getProjectName W [] = (Ret (""%string, Some e), h')
  /\ getProjectOrg W [] = (Ret (""%string, Some e), h')
  /\ getProjectHomeURL W [] = (Ret (""%string, Some e), h').
Proof.
  intros W e h'.
  refine (getters_return_remote_error W [] ""%string e _).
  vm_compute. reflexivity.
Defined.

(** ** The launcher and the client *)

Lemma load_run (W : World) (url : string) (h : list event) :
  let h1 := h ++ [EvLog ("loading " ++ url)] in
  let probe := exec_Command "command" ["-v"; "xdg-open"] in
  let h2 := h1 ++ [EvRun probe] in
  let opener := match Run_err (run_process W h1 probe) with
                | None => "xdg-open"%string
                | Some _ => "open"%string
                end in
  load W url h
  = (Ret (Run_err (run_process W h2 (exec_Command opener [url]))),
     h2 ++ [EvRun (exec_Command opener [url])]).
Proof.
  intros h1 probe h2 opener.
  unfold load, commandExists, bind, log_Print, cmd_Run. fold h1. fold probe.
  unfold opener. destruct (Run_err (run_process W h1 probe)); reflexivity.
Qed.

Lemma getGitlabClient_run (W : World) (h : list event) :
  getGitlabClient W h = (Ret (env_client W), h).
Proof.
  unfold getGitlabClient, env_client.
  destruct (String.eqb (os_Getenv W "GITLAB_HOST") ""); reflexivity.
Qed.

(** What is left of a run once the URL is known: the launcher, then [must]. *)
Lemma open_run (W : World) (url : string) (h : list event) :
  let h1 := h ++ [EvLog ("loading " ++ url)] in
  let probe := exec_Command "command" ["-v"; "xdg-open"] in
  let h2 := h1 ++ [EvRun probe] in
  let opener := match Run_err (run_process W h1 probe) with
                | None => "xdg-open"%string
                | Some _ => "open"%string
                end in
  let h3 := h2 ++ [EvRun (exec_Command opener [url])] in
  (err <- load W url ;; must err) h
  = match Run_err (run_process W h2 (exec_Command opener [url])) with
    | None => (Ret tt, h3)
    | Some e => (Exit 1, h3 ++ [fatal_line e])
    end.
Proof.
  intros h1 probe h2 opener h3.
  rewrite (bind_Ret _ _ _ _ _ (load_run W url h)).
  fold h1. fold probe. fold h2. fold opener. fold h3.
  unfold must.
  destruct (Run_err (run_process W h2 (exec_Command opener [url]))); reflexivity.
Qed.

(** ** The run for ["home"] *)

Lemma main_home_run (W : World) (prog : string) (rest : list string) (h : list event) :
  main W (prog :: "home" :: rest) h
  = (homeURL <- stringmust (getProjectHomeURL W) ;;
     err <- load W homeURL ;; must err) h.
Proof. rewrite main_arg. reflexivity. Qed.

Lemma main_mr_run (W : World) (prog : string) (rest : list string) (h : list event) :
  main W (prog :: "mr" :: rest) h
  = (branch <- stringmust (getBranch W) ;;
     projID <- stringmust (getProjectID W (env_client W)) ;;
     mrURL <- stringmust (getMRURL W (env_client W) projID branch) ;;
     err <- load W mrURL ;; must err) h.
Proof.
  rewrite main_arg. cbn [String.eqb Ascii.eqb Bool.eqb andb].
  now rewrite (bind_Ret _ _ _ _ _ (getGitlabClient_run W h)).
Qed.

(** X8. The run for ["home"] of an SSH push remote [user@host:org/name.git]:
    after [git remote -v], the launcher is given [https://host/org/name];
    the run returns (status 0) when the opener succeeds, and otherwise logs
    the opener's error and exits with status 1. *)
Theorem main_home_opens_home_page
        (W : World) (prog : string) (rest : list string) (h : list event)
        (out user host org name : string) :
  run_process W h (exec_Command "git" ["remote"; "-v"]) = Exited 0 out ->
  push_remote out
  = ((user ++ "@" ++ host ++ ":" ++ org ++ "/" ++ name ++ ".git")%string, None) ->
  contains "@" user = false -> contains ":" user = false ->
  contains ":" host = false -> contains "/" org = false ->
  let home := ("https://" ++ host ++ "/" ++ org ++ "/" ++ name)%string in
  let h1 := h ++ [EvRun (exec_Command "git" ["remote"; "-v"])]
              ++ [EvLog ("loading " ++ home)] in
  let probe := exec_Command "command" ["-v"; "xdg-open"] in
  let h2 := h1 ++ [EvRun probe] in
  let opener := match Run_err (run_process W h1 probe) with
                | None => "xdg-open"%string
                | Some _ => "open"%string
                end in
  let h3 := h2 ++ [EvRun (exec_Command opener [home])] in
  main W (prog :: "home" :: rest) h
  = match Run_err (run_process W h2 (exec_Command opener [home])) with
    | None => (Ret tt, h3)
    | Some e => (Exit 1, h3 ++ [fatal_line e])
    end.
Proof.
  intros Hrun Hpush Hu1 Hu2 Hh Ho home h1 probe h2 opener h3.
  destruct (parse_ssh_parts user host org name Hu1 Hu2 Hh Ho) as (_ & _ & Eu).
  assert (Hhome : getProjectHomeURL W h
                  = (Ret (home, None), h ++ [EvRun (exec_Command "git" ["remote"; "-v"])])).
  { rewrite getProjectHomeURL_run, Hrun. cbn [Run_err Run_out Z.eqb].
    now rewrite Hpush, Eu. }
  rewrite main_home_run.
  rewrite (bind_Ret _ _ _ _ _ (stringmust_ok _ _ _ _ Hhome)).
  rewrite open_run. unfold h3, opener, h2, probe, h1. now rewrite <- !app_assoc.
Qed.

Lemma main_home_opens_home_page_witness :
  main (sample_world [] []) ["git-open"; "home"] []
  = (Ret tt,
     [EvRun (exec_Command "git" ["remote"; "-v"]);
      EvLog "loading https://gitlab.mx.com/mx/atlas";
      EvRun (exec_Command "command" ["-v"; "xdg-open"]);
      EvRun (exec_Command "xdg-open" ["https://gitlab.mx.com/mx/atlas"])]).
Proof.
  generalize (main_home_opens_home_page (sample_world [] []) "git-open" [] []
                sample_remotes "git" "gitlab.mx.com" "mx" "atlas").
  vm_compute. intros H. apply H; reflexivity.
Defined.

(** X9. The run for ["home"] of a push remote without ["@"] (an HTTPS
    remote, for one) ends in the run-time panic of [userAndRest[1]] right
    after [git remote -v]: nothing is logged and no opener is run. *)
Theorem main_home_panics_without_at
        (W : World) (prog : string) (rest : list string) (h : list event)
        (out url : string) :
  run_process W h (exec_Command "git" ["remote"; "-v"]) = Exited 0 out ->
  push_remote out = (url, None) ->
  contains "@" url = false ->
  main W (prog :: "home" :: rest) h
  = (Panic (index_out_of_range 1 1),
     h ++ [EvRun (exec_Command "git" ["remote"; "-v"])]).
Proof.
  intros Hrun Hpush Hat. rewrite main_home_run.
  apply bind_Panic. unfold stringmust. apply bind_Panic.
  rewrite getProjectHomeURL_run, Hrun. cbn [Run_err Run_out Z.eqb].
  now rewrite Hpush, parseRepoURLProjectURL_eq, Hat.
Qed.

Lemma main_home_panics_without_at_witness :
  let W := {| os_Getenv := fun _ => ""%string;
              run_process := fun _ _ =>
                Exited 0 ("origin" ++ TAB
                          ++ "https://github.com/minond/git-open.git (push)" ++ LF);
              list_projects := fun _ _ _ => ([], None);
              list_merge_requests := fun _ _ _ _ => ([], None) |} in
  main W ["git-open"] []
  = (Panic (index_out_of_range 1 1), [EvRun (exec_Command "git" ["remote"; "-v"])]).
Proof.
  intros W.
  generalize (main_home_panics_without_at W "git-open" [] []
                ("origin" ++ TAB ++ "https://github.com/minond/git-open.git (push)" ++ LF)
                "https://github.com/minond/git-open.git").
  vm_compute. intros H. apply H; reflexivity.
Defined.

(** X10. The run for ["home"] without a push remote: when
    [getProjectRemote] returns an error, the run logs it and exits with
    status 1, and no opener is run. *)
Theorem main_home_exits_without_remote
        (W : World) (prog : string) (rest : list string) (h : list event)
        (url : string) (e : error) :
  fst (getProjectRemote W h) = Ret (url, Some e) ->
  main W (prog :: "home" :: rest) h
  = (Exit 1, h ++ [EvRun (exec_Command "git" ["remote"; "-v"]); fatal_line e]).
Proof.
  intros H. rewrite getProjectRemote_run in H. cbn [fst] in H.
  assert (Hhome : getProjectHomeURL W h
                  = (Ret (""%string, Some e),
                     h ++ [EvRun (exec_Command "git" ["remote"; "-v"])])).
  { rewrite getProjectHomeURL_run. destruct (Run_err _) as [e'|].
    - now injection H as _ ->.
    - destruct (push_remote _) as [url' [e'|]]; [|discriminate].
      now injection H as _ ->. }
  rewrite main_home_run.
  rewrite (bind_Exit _ _ _ _ _ (stringmust_err _ _ _ _ _ Hhome)).
  now rewrite <- app_assoc.
Qed.

Lemma main_home_exits_without_remote_witness :
  let W := {| os_Getenv := fun _ => ""%string;
              run_process := fun _ _ => NotStarted "exec: git: not found";
              list_projects := fun _ _ _ => ([], None);
              list_merge_requests := fun _ _ _ _ => ([], None) |} in
  main W ["git-open"; "homepage"] []
  = (Exit 1, [EvRun (exec_Command "git" ["remote"; "-v"]);
              EvLog ("error: exec: git: not found" ++ LF)]).
Proof.
  intros W.
  refine (main_home_exits_without_remote W "git-open" [] [] ""%string
            (exec_Error "exec: git: not found") _).
  vm_compute. reflexivity.
Defined.

(** ** The run for ["mr"] *)

Lemma getMRURL_run (W : World) (client : Client) (projID branch : string)
      (h : list event) :
  let line := EvLog ("finding MRs for project id(" ++ projID ++ ") on branch " ++ branch) in
  let opt := {| SourceBranch := Some branch; State := Some "opened"%string;
                View := Some "simple"%string |} in
  getMRURL W client projID branch h
  = (Ret match snd (list_merge_requests W (h ++ [line]) client projID opt) with
         | Some e => (""%string, Some e)
         | None =>
           match fst (list_merge_requests W (h ++ [line]) client projID opt) with
           | [] => (""%string, Some (errors_New "no matching MRs found"))
           | mr :: _ => (WebURL mr, None)
           end
         end,
     h ++ [line; EvListProjectMergeRequests client projID opt]).
Proof.
  intros line opt.
  unfold getMRURL, bind, log_Print, MergeRequests_ListProjectMergeRequests, stringptr.
  fold line. fold opt. rewrite <- app_assoc.
  destruct (list_merge_requests W (h ++ [line]) client projID opt) as [mrs [e|]];
    [reflexivity|].
  destruct mrs; reflexivity.
Qed.

(** X11. The run for ["mr"], when every step succeeds: with the branch
    resolved, the project found and a non-empty answer [mr :: more] to the
    query for open merge requests of that branch, the launcher is given the
    [WebURL] of [mr]; the run returns (status 0) when the opener succeeds,
    and otherwise logs the opener's error and exits with status 1. *)
Theorem main_mr_opens_merge_request
        (W : World) (prog : string) (rest : list string) (h h1 h2 : list event)
        (branch projID : string) (mr : MergeRequest) (more : list MergeRequest) :
  let client := env_client W in
  let line := EvLog ("finding MRs for project id(" ++ projID ++ ") on branch " ++ branch) in
  let opt := {| SourceBranch := Some branch; State := Some "opened"%string;
                View := Some "simple"%string |} in
  getBranch W h = (Ret (branch, None), h1) ->
  getProjectID W client h1 = (Ret (projID, None), h2) ->
  list_merge_requests W (h2 ++ [line]) client projID opt = (mr :: more, None) ->
  let h3 := h2 ++ [line; EvListProjectMergeRequests client projID opt]
               ++ [EvLog ("loading " ++ WebURL mr)] in
  let probe := exec_Command "command" ["-v"; "xdg-open"] in
  let h4 := h3 ++ [EvRun probe] in
  let opener := match Run_err (run_process W h3 probe) with
                | None => "xdg-open"%string
                | Some _ => "open"%string
                end in
  let h5 := h4 ++ [EvRun (exec_Command opener [WebURL mr])] in
  main W (prog :: "mr" :: rest) h
  = match Run_err (run_process W h4 (exec_Command opener [WebURL mr])) with
    | None => (Ret tt, h5)
    | Some e => (Exit 1, h5 ++ [fatal_line e])
    end.
Proof.
  intros client line opt Hbranch Hproj Hmrs h3 probe h4 opener h5.
  assert (Hurl : getMRURL W client projID branch h2
                 = (Ret (WebURL mr, None),
                    h2 ++ [line; EvListProjectMergeRequests client projID opt])).
  { rewrite getMRURL_run. fold line. fold opt. now rewrite Hmrs. }
  rewrite main_mr_run. fold client.
  rewrite (bind_Ret _ _ _ _ _ (stringmust_ok _ _ _ _ Hbranch)).
  rewrite (bind_Ret _ _ _ _ _ (stringmust_ok _ _ _ _ Hproj)).
  rewrite (bind_Ret _ _ _ _ _ (stringmust_ok _ _ _ _ Hurl)).
  rewrite open_run. unfold h5, opener, h4, probe, h3. now rewrite <- !app_assoc.
Qed.

Lemma main_mr_opens_merge_request_witness :
  main (sample_world [atlas_fork; atlas]
                     [ {| WebURL := "https://gitlab.mx.com/mx/atlas/merge_requests/9" |} ])
       ["git-open"; "mr"] []
  = (Ret tt,
     [EvLog "getting current working branch";
      EvRun (exec_Command "git" ["branch"]);
      EvLog "getting gitlab project id";
      EvRun (exec_Command "git" ["remote"; "-v"]);
      EvRun (exec_Command "git" ["remote"; "-v"]);
      EvListProjects sample_client {| Search := Some "atlas"%string |};
      EvLog "finding MRs for project id(42) on branch feature/login";
      EvListProjectMergeRequests
        sample_client "42"
        {| SourceBranch := Some "feature/login"%string;
           State := Some "opened"%string; View := Some "simple"%string |};
      EvLog "loading https://gitlab.mx.com/mx/atlas/merge_requests/9";
      EvRun (exec_Command "command" ["-v"; "xdg-open"]);
      EvRun (exec_Command "xdg-open" ["https://gitlab.mx.com/mx/atlas/merge_requests/9"])]).
Proof.
  generalize
    (main_mr_opens_merge_request
       (sample_world [atlas_fork; atlas]
                     [ {| WebURL := "https://gitlab.mx.com/mx/atlas/merge_requests/9" |} ])
       "git-open" [] []
       [EvLog "getting current working branch";
        EvRun (exec_Command "git" ["branch"])]
       [EvLog "getting current working branch";
        EvRun (exec_Command "git" ["branch"]);
        EvLog "getting gitlab project id";
        EvRun (exec_Command "git" ["remote"; "-v"]);
        EvRun (exec_Command "git" ["remote"; "-v"]);
        EvListProjects sample_client {| Search := Some "atlas"%string |}]
       "feature/login" "42"
       {| WebURL := "https://gitlab.mx.com/mx/atlas/merge_requests/9" |} []).
  vm_compute. intros H. apply H; reflexivity.
Defined.

(** X12. The run for ["mr"] stops at the first step that returns an error:
    it logs that error and exits with status 1, and the events of the run
    end there.  (a) the branch is not resolved: [git remote -v], the API and
    the opener are never reached; (b) the project is not found; (c) no merge
    request is found. *)
Theorem main_mr_fails_fast
        (W : World) (prog : string) (rest : list string) (h : list event) :
  (forall (s : string) (e : error),
      fst (getBranch W h) = Ret (s, Some e) ->
      main W (prog :: "mr" :: rest) h
      = (Exit 1, h ++ [EvLog "getting current working branch";
                       EvRun (exec_Command "git" ["branch"]); fatal_line e]))
  /\ (forall (branch s : string) (e : error) (h1 h2 : list event),
         getBranch W h = (Ret (branch, None), h1) ->
         getProjectID W (env_client W) h1 = (Ret (s, Some e), h2) ->
         main W (prog :: "mr" :: rest) h = (Exit 1, h2 ++ [fatal_line e]))
  /\ (forall (branch projID s : string) (e : error) (h1 h2 h3 : list event),
         getBranch W h = (Ret (branch, None), h1) ->
         getProjectID W (env_client W) h1 = (Ret (projID, None), h2) ->
         getMRURL W (env_client W) projID branch h2 = (Ret (s, Some e), h3) ->
         main W (prog :: "mr" :: rest) h = (Exit 1, h3 ++ [fatal_line e])).
Proof.
  repeat split.
  - intros s e H. pose proof (getBranch_run W h) as Hrun. cbn zeta in Hrun.
    rewrite Hrun in H. cbn [fst] in H. injection H as H. rewrite H in Hrun.
    rewrite main_mr_run.
    rewrite (bind_Exit _ _ _ _ _ (stringmust_err _ _ _ _ _ Hrun)).
    now rewrite <- !app_assoc.
  - intros branch s e h1 h2 Hbranch Hproj. rewrite main_mr_run.
    rewrite (bind_Ret _ _ _ _ _ (stringmust_ok _ _ _ _ Hbranch)).
    now rewrite (bind_Exit _ _ _ _ _ (stringmust_err _ _ _ _ _ Hproj)).
  - intros branch projID s e h1 h2 h3 Hbranch Hproj Hurl. rewrite main_mr_run.
    rewrite (bind_Ret _ _ _ _ _ (stringmust_ok _ _ _ _ Hbranch)).
    rewrite (bind_Ret _ _ _ _ _ (stringmust_ok _ _ _ _ Hproj)).
    now rewrite (bind_Exit _ _ _ _ _ (stringmust_err _ _ _ _ _ Hurl)).
Qed.

Lemma main_mr_fails_fast_witness :
  let W := {| os_Getenv := fun _ => ""%string;
              run_process := fun _ _ => Exited 0 ("  master" ++ LF ++ "  develop" ++ LF);
              list_projects := fun _ _ _ => ([], None);
              list_merge_requests := fun _ _ _ _ => ([], None) |} in
  main W ["git-open"; "mr"] []
  = (Exit 1, [EvLog "getting current working branch";
              EvRun (exec_Command "git" ["branch"]);
              EvLog ("error: unable to get current working branch" ++ LF)]).
Proof.
  intros W.
  refine (proj1 (main_mr_fails_fast W "git-open" [] []) ""%string
                (errors_New "unable to get current working branch") _).
  vm_compute. reflexivity.
Defined.

(** ** Project lookup, from the answers of git and of the API *)

(** X13. [getProjectID] asks git for the remotes twice: the name is parsed
    from the first answer and the org from the second; the search is by
    name alone and is the only API call; the result is the ID of the first
    project whose [SSHURLToRepo] ends with [org/name.git]. *)
Theorem getProjectID_reads_remote_twice
        (W : World) (client : Client) (h : list event)
        (out1 out2 url1 url2 name org : string) (projs : list Project) :
  let remote := exec_Command "git" ["remote"; "-v"] in
  let h1 := h ++ [EvLog "getting gitlab project id"] in
  let h2 := h1 ++ [EvRun remote] in
  let h3 := h2 ++ [EvRun remote] in
  run_process W h1 remote = Exited 0 out1 ->
  push_remote out1 = (url1, None) -> parseRepoURLProjectName url1 = Ret name ->
  run_process W h2 remote = Exited 0 out2 ->
  push_remote out2 = (url2, None) -> parseRepoURLProjectOrg url2 = Ret org ->
  list_projects W h3 client {| Search := Some name |} = (projs, None) ->
  getProjectID W client h
  = (Ret match projs with
         | [] => (""%string, Some (errors_New "got back no projects matching name"))
         | _ :: _ =>
           match find (fun proj => HasSuffix (SSHURLToRepo proj)
                                             (org ++ "/" ++ name ++ ".git"))
                      projs with
           | Some proj => (strconv.Itoa (ID proj), None)
           | None => (""%string, Some (errors_New "unable to find project"))
           end
         end,
     h3 ++ [EvListProjects client {| Search := Some name |}]).
Proof.
  intros remote h1 h2 h3 Hrun1 Hpush1 Hname Hrun2 Hpush2 Horg Hprojs.
  assert (Hn : getProjectName W h1 = (Ret (name, None), h2)).
  { rewrite getProjectName_run. fold remote. rewrite Hrun1.
    cbn [Run_err Run_out Z.eqb]. now rewrite Hpush1, Hname. }
  assert (Ho : getProjectOrg W h2 = (Ret (org, None), h3)).
  { rewrite getProjectOrg_run. fold remote. rewrite Hrun2.
    cbn [Run_err Run_out Z.eqb]. now rewrite Hpush2, Horg. }
  exact (getProjectID_run W client h h2 h3 name org projs Hn Ho Hprojs).
Qed.

Lemma getProjectID_reads_remote_twice_witness :
  getProjectID (sample_world [atlas_fork; atlas] []) sample_client []
  = (Ret ("42"%string, None),
     [EvLog "getting gitlab project id";
      EvRun (exec_Command "git" ["remote"; "-v"]);
      EvRun (exec_Command "git" ["remote"; "-v"]);
      EvListProjects sample_client {| Search := Some "atlas"%string |}]).
Proof.
  generalize
    (getProjectID_reads_remote_twice
       (sample_world [atlas_fork; atlas] []) sample_client []
       sample_remotes sample_remotes
       "git@gitlab.mx.com:mx/atlas.git" "git@gitlab.mx.com:mx/atlas.git"
       "atlas" "mx" [atlas_fork; atlas]).
  vm_compute. intros H. apply H; reflexivity.
Defined.

(** X14. No search without a remote: when [getProjectRemote] returns an
    error, [getProjectID] returns that error after the one run of
    [git remote -v], and makes no API call. *)
Theorem getProjectID_without_remote
        (W : World) (client : Client) (h : list event) (url : string) (e : error) :
  fst (getProjectRemote W (h ++ [EvLog "getting gitlab project id"]))
  = Ret (url, Some e) ->
  getProjectID W client h
  = (Ret (""%string, Some e),
     h ++ [EvLog "getting gitlab project id";
           EvRun (exec_Command "git" ["remote"; "-v"])]).
Proof.
  intros H. rewrite getProjectRemote_run in H. cbn [fst] in H.
  assert (Hn : getProjectName W (h ++ [EvLog "getting gitlab project id"])
               = (Ret (""%string, Some e),
                  (h ++ [EvLog "getting gitlab project id"])
                    ++ [EvRun (exec_Command "git" ["remote"; "-v"])])).
  { rewrite getProjectName_run. destruct (Run_err _) as [e'|].
    - now injection H as _ ->.
    - destruct (push_remote _) as [url' [e'|]]; [|discriminate].
      now injection H as _ ->. }
  unfold getProjectID. unfold bind at 1. unfold log_Print at 1.
  rewrite (bind_Ret _ _ _ _ _ Hn). unfold ret. now rewrite <- app_assoc.
Qed.

Lemma getProjectID_without_remote_witness :
  let W := {| os_Getenv := fun _ => ""%string;
              run_process := fun _ _ => Exited 128 "";
              list_projects := fun _ _ _ => ([atlas], None);
              list_merge_requests := fun _ _ _ _ => ([], None) |} in
  getProjectID W sample_client []
  = (Ret (""%string, Some (exec_ExitError 128)),
     [EvLog "getting gitlab project id";
      EvRun (exec_Command "git" ["remote"; "-v"])]).
Proof.
  intros W.
  refine (getProjectID_without_remote W sample_client [] ""%string
                                      (exec_ExitError 128) _).
  vm_compute. reflexivity.
Defined.

(** X15. An error of the API is returned as it is, with an empty string,
    whatever list comes with it: by [getProjectID] for the search, and by
    [getMRURL] for the query of merge requests. *)
Theorem lookups_return_api_error (W : World) (client : Client) (e : error) :
  (forall (h h2 h3 : list event) (name org : string) (projs : list Project),
      getProjectName W (h ++ [EvLog "getting gitlab project id"])
      = (Ret (name, None), h2) ->
      getProjectOrg W h2 = (Ret (org, None), h3) ->
      list_projects W h3 client {| Search := Some name |} = (projs, Some e) ->
      getProjectID W client h
      = (Ret (""%string, Some e), h3 ++ [EvListProjects client {| Search := Some name |}]))
  /\ (forall (h : list event) (projID branch : string) (mrs : list MergeRequest),
         let line := EvLog ("finding MRs for project id(" ++ projID
                            ++ ") on branch " ++ branch) in
         let opt := {| SourceBranch := Some branch; State := Some "opened"%string;
                       View := Some "simple"%string |} in
         list_merge_requests W (h ++ [line]) client projID opt = (mrs, Some e) ->
         getMRURL W client projID branch h
         = (Ret (""%string, Some e),
            h ++ [line; EvListProjectMergeRequests client projID opt])).
Proof.
  split.
  - intros h h2 h3 name org projs Hn Ho Hp. unfold getProjectID.
    unfold bind at 1. unfold log_Print at 1.
    rewrite (bind_Ret _ _ _ _ _ Hn), (bind_Ret _ _ _ _ _ Ho).
    unfold bind, Projects_ListProjects, stringptr. now rewrite Hp.
  - intros h projID branch mrs line opt H. rewrite getMRURL_run.
    fold line. fold opt. now rewrite H.
Qed.

Lemma lookups_return_api_error_witness :
  let W := {| os_Getenv := fun _ => ""%string;
              run_process := fun _ _ => Exited 0 "";
              list_projects := fun _ _ _ => ([], None);
              list_merge_requests := fun _ _ _ _ =>
                ([ {| WebURL := "https://gitlab.mx.com/mx/atlas/merge_requests/9" |} ],
                 Some (gitlab_Error "401 Unauthorized")) |} in
  getMRURL W sample_client "42" "master" []
  = (Ret (""%string, Some (gitlab_Error "401 Unauthorized")),
     [EvLog "finding MRs for project id(42) on branch master";
      EvListProjectMergeRequests
        sample_client "42"
        {| SourceBranch := Some "master"%string;
           State := Some "opened"%string; View := Some "simple"%string |}]).
Proof.
  intros W.
  exact (proj2 (lookups_return_api_error W sample_client (gitlab_Error "401 Unauthorized"))
               [] "42"%string "master"%string _ eq_refl).
Defined.

(** ** What the events of a run can be *)

Section Emits.

Variable W : World.
Variable P : event -> bool.

Lemma emits_ret {A : Type} (a : A) : emits P (ret a).
Proof. intros h. exists []. split; [cbn; now rewrite app_nil_r | reflexivity]. Qed.

Lemma emits_lift {A : Type} (o : outcome A) : emits P (lift o).
Proof. intros h. exists []. split; [cbn; now rewrite app_nil_r | reflexivity]. Qed.

Lemma emits_bind {A B : Type} (m : M A) (k : A -> M B) :
  emits P m -> (forall a, emits P (k a)) -> emits P (bind m k).
Proof.
  intros Hm Hk h. destruct (Hm h) as (tr & Htr & HP). unfold bind.
  destruct (m h) as [[a | p | code] h']; cbn [snd] in Htr; subst h'.
  - destruct (Hk a (h ++ tr)) as (tr' & Htr' & HP'). exists (tr ++ tr'). split.
    + now rewrite Htr', app_assoc.
    + rewrite forallb_app, HP, HP'. reflexivity.
  - now exists tr.
  - now exists tr.
Qed.

Lemma emits_one {A : Type} (m : M A) (e : event) :
  (forall h, snd (m h) = h ++ [e]) -> P e = true -> emits P m.
Proof.
  intros Hm He h. exists [e]. split; [apply Hm|]. cbn. now rewrite He.
Qed.

Lemma emits_log_Print (text : string) :
  P (EvLog text) = true -> emits P (log_Print text).
Proof. apply emits_one. reflexivity. Qed.

Lemma emits_log_Fatalf {A : Type} (text : string) :
  P (EvLog text) = true -> emits P (@log_Fatalf A text).
Proof. apply emits_one. reflexivity. Qed.

Lemma emits_cmd_Run (cmd : Cmd) :
  P (EvRun cmd) = true -> emits P (cmd_Run W cmd).
Proof. apply emits_one. reflexivity. Qed.

Lemma emits_ListProjects (client : Client) (opt : ListProjectsOptions) :
  P (EvListProjects client opt) = true ->
  emits P (Projects_ListProjects W client opt).
Proof. apply emits_one. reflexivity. Qed.

Lemma emits_ListProjectMergeRequests
      (client : Client) (pid : string) (opt : ListProjectMergeRequestsOptions) :
  P (EvListProjectMergeRequests client pid opt) = true ->
  emits P (MergeRequests_ListProjectMergeRequests W client pid opt).
Proof. apply emits_one. reflexivity. Qed.

End Emits.

Ltac emits_side :=
  repeat match goal with
         | |- context [if ?b then _ else _] => destruct b
         end;
  reflexivity.

Ltac emits_step :=
  first
    [ apply emits_ret | apply emits_lift
    | apply emits_log_Print; emits_side
    | apply emits_log_Fatalf; emits_side
    | apply emits_cmd_Run; emits_side
    | apply emits_ListProjects; emits_side
    | apply emits_ListProjectMergeRequests; emits_side
    | apply emits_bind; [|intros ?]
    | match goal with
      | |- emits _ (match ?x with _ => _ end) => destruct x
      end ].

Ltac emits_all := repeat emits_step.

(** X16. The run for ["home"], for ["homepage"] and without an argument
    never reaches the network, whatever git and the opener do. *)
Theorem main_home_never_uses_network
        (W : World) (prog : string) (rest : list string) :
  emits no_network (main W [prog])
  /\ emits no_network (main W (prog :: "home" :: rest))
  /\ emits no_network (main W (prog :: "homepage" :: rest)).
Proof.
  assert (H : emits no_network
                    (homeURL <- stringmust (getProjectHomeURL W) ;;
                     err <- load W homeURL ;; must err)).
  { unfold stringmust, getProjectHomeURL, getProjectRemote, load, commandExists, must.
    emits_all. }
  repeat split; intros h; apply H.
Qed.

(** X17. Whatever its arguments, [main] runs no other commands than
    [git branch], [git remote -v], [command -v xdg-open] and the opener
    ([xdg-open] or [open]) with one argument, all in the current
    directory. *)
Theorem main_runs_read_only_commands (W : World) (os_Args : list string) :
  emits runs_read_only (main W os_Args).
Proof.
  unfold main, getGitlabClient, stringmust, getBranch, getProjectID, getProjectName,
    getProjectOrg, getProjectHomeURL, getProjectRemote, getMRURL, load,
    commandExists, must.
  emits_all.
Qed.

(** X18. The earlier variant runs git in its fixed directory only, never in
    the current one. *)
Theorem Earlier_main_runs_git_in_workdir (W : World) :
  emits git_in_workdir (Earlier.main W).
Proof.
  unfold Earlier.main, stringmust, Earlier.getBranch, Earlier.getProjectID,
    Earlier.getProjectName, getMRURL, load, commandExists, must.
  emits_all.
Qed.

(** X19. The earlier variant takes the first project of the answer whatever
    its repository URL: it asks git once, searches by name, and returns the
    ID of [proj] for the answer [proj :: more]; the index expression
    [projs[0]] does not panic. *)
Theorem Earlier_getProjectID_takes_first
        (W : World) (client : Client) (h h2 : list event) (name : string)
        (proj : Project) (more : list Project) :
  Earlier.getProjectName W (h ++ [EvLog "getting gitlab project id"])
  = (Ret (name, None), h2) ->
  list_projects W h2 client {| Search := Some name |} = (proj :: more, None) ->
  Earlier.getProjectID W client h
  = (Ret (strconv.Itoa (ID proj), None),
     h2 ++ [EvListProjects client {| Search := Some name |}]).
Proof.
  intros Hname Hprojs.
  exact (Earlier_getProjectID_run W client h h2 name (proj :: more) Hname Hprojs).
Qed.

Lemma Earlier_getProjectID_takes_first_witness :
  Earlier.getProjectID (sample_world [atlas_fork; atlas] []) sample_client []
  = (Ret ("7"%string, None),
     [EvLog "getting gitlab project id";
      EvRun {| Args := ["git"; "remote"; "-v"]; Dir := Earlier.workdir |};
      EvListProjects sample_client {| Search := Some "atlas"%string |}]).
Proof.
  generalize
    (Earlier_getProjectID_takes_first
       (sample_world [atlas_fork; atlas] []) sample_client []
       [EvLog "getting gitlab project id";
        EvRun {| Args := ["git"; "remote"; "-v"]; Dir := Earlier.workdir |}]
       "atlas" atlas_fork [atlas]).
  vm_compute. intros H. apply H; reflexivity.
Defined.
